(** * baeunjs: element builder, state manager and hash router

    A shallow embedding of [src/baeunjs.js] and the properties of its
    helpers [elem], [stateManager], [hashRouter] and [Link].

    ** How the program is modelled

    - JavaScript values are the inductive type [value].  The DOM nodes the
      library builds are trees ([node], [element]) that record the attributes,
      properties, listeners and children the library put on them.
    - Exceptions are explicit: a computation is a [result], [Return a] or
      [Throw e].  An [error] stands for the [throw] statement or the host
      operation that raises it; the text of the message is not modelled, but
      building it is: a [throw] statement whose message holds [`${value}`]
      first converts the value to a string, and raises the [TypeError] of the
      conversion when the value has no string form.
    - Code that works on ambient state ([localStorage], the callback
      registry, the console, the page) is a function from a state to a result
      and the state left behind, so that what was done before an exception
      stays done.
    - Strings are sequences of code units below 256.
    - What the browser decides and the library only asks for (the string form
      of a value that is no string, the numeric reading of a string, which
      properties a fresh element has and which assignments to them it
      refuses, which names [createElement] and [setAttribute] accept) is a
      parameter: the class [Host].  Properties hold for every host.
    - The route table is a plain object: a lookup that finds no route of the
      table's own finds the members of [Object.prototype].

    ** What is outside the model

    - A JSON text is identified with the document it denotes, so
      [JSON.parse] of the text [JSON.stringify] wrote gives that document;
      strings in [localStorage] that are no JSON text are not represented.
    - [localStorage] is an always-available map: quota and security
      exceptions of the browser do not occur.
    - Callbacks given to [onChange] are observers, known by identity: a call
      is recorded, it neither throws nor calls back into the state manager.
    - The callback registry is read by its own keys; what a key inherits
      from [Object.prototype] is not represented there, and what the methods
      do with the callbacks of a key is stated for the keys that name nothing
      in [Object.prototype].
    - A function held by a value is known by identity and is not run: a
      conversion method ([toString], [valueOf]) supplied by the caller is
      taken to return a string, a [toJSON] method is left out.
    - Numbers carry the integers and the three non-finite values; fractions
      and the sign of zero are not represented.  The library does no
      arithmetic. *)

From stdpp Require Import gmap strings list pretty sorting.
From Stdlib Require Import ZArith Ascii.

Set Default Proof Using "Type".

(* ===================================================================== *)
(** * String primitives used by the library *)
(* ===================================================================== *)

Module Str.

(** Code unit of a character. *)
Definition code (c : ascii) : nat := nat_of_ascii c.

(** [WhiteSpace] and [LineTerminator] code units below 256: TAB, LF, VT, FF,
    CR, SP and NBSP.  These are what [String.prototype.trim] strips. *)
Definition isWhiteSpace (c : ascii) : bool :=
  bool_decide (code c ∈ [9; 10; 11; 12; 13; 32; 160]).

Fixpoint trimStart (s : string) : string :=
  match s with
  | EmptyString => EmptyString
  | String c r => if isWhiteSpace c then trimStart r else s
  end.

Fixpoint trimEnd (s : string) : string :=
  match s with
  | EmptyString => EmptyString
  | String c r =>
      match trimEnd r with
      | EmptyString => if isWhiteSpace c then EmptyString else String c EmptyString
      | r' => String c r'
      end
  end.

(** [s.trim()] *)
Definition trim (s : string) : string := trimEnd (trimStart s).

(** [s.slice(n)] for a non-negative [n]: the string without its first [n]
    code units. *)
Fixpoint slice (n : nat) (s : string) : string :=
  match n, s with
  | O, _ => s
  | S _, EmptyString => EmptyString
  | S n', String _ r => slice n' r
  end.

(** [s.startsWith(p)] *)
Definition startsWith (p s : string) : bool := String.prefix p s.

(** Lower-case mapping of one code unit: A-Z, and the Latin-1 capitals
    U+00C0-U+00DE except the multiplication sign U+00D7. *)
Definition lowerChar (c : ascii) : ascii :=
  let n := code c in
  if bool_decide (65 ≤ n ≤ 90) then ascii_of_nat (n + 32)
  else if bool_decide (192 ≤ n ≤ 222 ∧ n ≠ 215) then ascii_of_nat (n + 32)
  else c.

(** [s.toLowerCase()] *)
Fixpoint toLowerCase (s : string) : string :=
  match s with
  | EmptyString => EmptyString
  | String c r => String (lowerChar c) (toLowerCase r)
  end.

End Str.

(* ===================================================================== *)
(** * JavaScript values and DOM nodes *)
(* ===================================================================== *)

(** A number: the finite ones are carried by the integers (the library does
    no arithmetic), next to the three non-finite values. *)
Inductive number : Type :=
| Finite (z : Z)
| NaN
| Infinity
| NegInfinity.

(** Values.  A function is known by its identity.  A plain object is the
    list of its own enumerable properties in property order.  [VNode] is a
    DOM node held by a script. *)
#[warnings="-register-all"]
Inductive value : Type :=
| VUndefined
| VNull
| VBoolean (b : bool)
| VNumber (n : number)
| VBigInt (z : Z)
| VString (s : string)
| VSymbol (description : string)
| VFunction (f : nat)
| VArray (items : list value)
| VObject (props : list (string * value))
| VNode (n : node)
with node : Type :=
| TextNode (data : string)
| HTMLElement (e : element)
with element : Type :=
| Element (name : string)
          (attributes : list (string * string))
          (properties : list (string * value))
          (listeners : list (string * value))
          (childNodes : list node).

Definition elementName (e : element) : string :=
  match e with Element t _ _ _ _ => t end.
Definition attributes (e : element) : list (string * string) :=
  match e with Element _ a _ _ _ => a end.
Definition properties (e : element) : list (string * value) :=
  match e with Element _ _ p _ _ => p end.
Definition listeners (e : element) : list (string * value) :=
  match e with Element _ _ _ l _ => l end.
Definition childNodes (e : element) : list node :=
  match e with Element _ _ _ _ c => c end.

(** [typeof v] *)
Definition typeof (v : value) : string :=
  match v with
  | VUndefined => "undefined"
  | VNull => "object"
  | VBoolean _ => "boolean"
  | VNumber _ => "number"
  | VBigInt _ => "bigint"
  | VString _ => "string"
  | VSymbol _ => "symbol"
  | VFunction _ => "function"
  | VArray _ => "object"
  | VObject _ => "object"
  | VNode _ => "object"
  end.

(** [Array.isArray(v)] *)
Definition isArray (v : value) : bool :=
  match v with VArray _ => true | _ => false end.

(** [v instanceof HTMLElement] *)
Definition instanceofHTMLElement (v : value) : bool :=
  match v with VNode (HTMLElement _) => true | _ => false end.

(** Errors, named after the place that raises them. *)
Inductive error : Type :=
| TagNameError (received : value)      (* elem: tagName must be a non-empty string *)
| ChildrenError (received : value)     (* appendChildren: invalid children *)
| UnsupportedTypeError                 (* stateManager.set *)
| NotFoundError (appId : string)       (* hashRouter: no container *)
| TypeError (what : string)            (* raised by the language *)
| InvalidCharacterError (name : string) (* raised by the DOM for a name *)
| DOMException (name : string).        (* any other exception of the DOM *)

Inductive result (A : Type) : Type :=
| Return (a : A)
| Throw (e : error).
Arguments Return {A} a.
Arguments Throw {A} e.

#[global] Instance result_ret : MRet result := λ A a, Return a.
#[global] Instance result_bind : MBind result := λ A B k m,
  match m with
  | Return a => k a
  | Throw e => Throw e
  end.

(** Ordered objects: own properties as an association list. *)
Module Obj.

Fixpoint get {A : Type} (key : string) (o : list (string * A)) : option A :=
  match o with
  | [] => None
  | (k, a) :: r => if bool_decide (k = key) then Some a else get key r
  end.

(** [o[key] = a]: overwrite in place, or add as the last property. *)
Fixpoint set {A : Type} (key : string) (a : A) (o : list (string * A))
  : list (string * A) :=
  match o with
  | [] => [(key, a)]
  | (k, b) :: r =>
      if bool_decide (k = key) then (k, a) :: r else (k, b) :: set key a r
  end.

Definition keys {A : Type} (o : list (string * A)) : list string := o.*1.

(** No property name occurs twice. *)
Definition wf {A : Type} (o : list (string * A)) : Prop := NoDup (keys o).

End Obj.

(* ===================================================================== *)
(** * The host *)
(* ===================================================================== *)

(** What an operation of the host raises: a [TypeError] of the language or
    a [DOMException] of the given name. *)
Inductive hostError : Type :=
| HostTypeError (what : string)
| HostDOMException (name : string).

Definition errorOf (x : hostError) : error :=
  match x with
  | HostTypeError what => TypeError what
  | HostDOMException name => DOMException name
  end.

(** What the browser decides and the library only asks for. *)
Class Host : Type := {
  (** the string the conversion of [v] gives, for a [v] that is not itself a
      string and has a string form *)
  hostToString : value → string;
  (** [Number(s)] for a string [s] *)
  hostStringToNumber : string → number;
  (** [key in document.createElement(name)] *)
  hasProperty : string → string → bool;
  (** what [element[key] = v] raises on an element created under [name], when
      it raises: the library is module code, where assigning to a property
      that can only be read ([tagName], [children], [dataset]) is a
      [TypeError], and a setter may refuse the value *)
  assignmentError : string → string → value → option hostError;
  (** whether [document.createElement] accepts the name *)
  validElementName : string → bool;
  (** whether [setAttribute] accepts the name *)
  validAttributeName : string → bool
}.

(** The string form of a value: the string itself, else what the host
    prints. *)
Definition stringForm `{Host} (v : value) : string :=
  match v with
  | VString s => s
  | _ => hostToString v
  end.

(** Whether the conversion to a string finds one.  A symbol has no string
    form.  An array is joined from the string forms of its elements, so it has
    one when they have.  A plain object is converted by its [toString]
    method and, if that gives nothing, by [valueOf]: the inherited [toString]
    always gives a string, so the conversion fails only when a property of
    its own named [toString] holds something that cannot be called and no
    function of its own named [valueOf] helps.  A conversion method supplied
    by the caller is taken to return a string. *)
Fixpoint hasStringForm (v : value) : bool :=
  match v with
  | VSymbol _ => false
  | VArray items => forallb hasStringForm items
  | VObject props =>
      match Obj.get "toString" props with
      | None | Some (VFunction _) => true
      | Some _ =>
          match Obj.get "valueOf" props with
          | Some (VFunction _) => true
          | _ => false
          end
      end
  | _ => true
  end.

(** What the [TypeError] of a failed conversion says: for an array it is the
    error of the first element without string form. *)
Fixpoint conversionMessage (v : value) : string :=
  match v with
  | VSymbol _ => "Cannot convert a Symbol value to a string"
  | VArray items =>
      (fix first (l : list value) : string :=
         match l with
         | [] => ""
         | x :: r => if hasStringForm x then first r else conversionMessage x
         end) items
  | _ => "Cannot convert object to primitive value"
  end.

(** [ToString(v)], the conversion the language applies in a template literal
    and in [join]. *)
Definition ToString `{Host} (v : value) : result string :=
  if hasStringForm v then Return (stringForm v)
  else Throw (TypeError (conversionMessage v)).

(** [String(v)]: a symbol is described, anything else converted. *)
Definition String_ `{Host} (v : value) : result string :=
  match v with
  | VSymbol _ => Return (stringForm v)
  | _ => ToString v
  end.

(** [Number(v)]; a symbol cannot be converted, an object is read through its
    string form. *)
Definition Number_ `{Host} (v : value) : result number :=
  match v with
  | VUndefined => Return NaN
  | VNull => Return (Finite 0)
  | VBoolean b => Return (Finite (if b then 1 else 0))
  | VNumber n => Return n
  | VBigInt z => Return (Finite z)
  | VString s => Return (hostStringToNumber s)
  | VSymbol _ => Throw (TypeError "Cannot convert a Symbol value to a number")
  | VFunction _ | VArray _ | VObject _ | VNode _ =>
      text ← ToString v; Return (hostStringToNumber text)
  end.

(** Index keys ["0"], ["1"], ... of an array-like of length [n]. *)
Definition indexKeys (n : nat) : list string := pretty <$> seq 0 n.

(** [Object.keys(v)] *)
Definition Object_keys (v : value) : result (list string) :=
  match v with
  | VUndefined | VNull =>
      Throw (TypeError "Cannot convert undefined or null to object")
  | VObject props => Return (Obj.keys props)
  | VArray items => Return (indexKeys (length items))
  | VString s => Return (indexKeys (String.length s))
  | _ => Return []
  end.

(** [v[key]] for an own enumerable property [key] of [v]; [undefined] when
    there is none. *)
Definition ownProperty (v : value) (key : string) : value :=
  match v with
  | VObject props => default VUndefined (Obj.get key props)
  | VArray items =>
      default VUndefined (Obj.get key (zip (indexKeys (length items)) items))
  | VString s =>
      default VUndefined
        (Obj.get key
           (zip (indexKeys (String.length s))
                ((λ c, VString (String c EmptyString)) <$> String.list_ascii_of_string s)))
  | _ => VUndefined
  end.

(** [l.forEach(f)] where [f] updates the state [a] and may throw. *)
Fixpoint forEach {A B : Type} (f : A → B → result A) (l : list B) (a : A)
  : result A :=
  match l with
  | [] => Return a
  | b :: r => a' ← f a b; forEach f r a'
  end.

(* ===================================================================== *)
(** * Element builder *)
(* ===================================================================== *)

(** ASCII lower-casing, as the DOM applies to attribute names. *)
Definition asciiLowerChar (c : ascii) : ascii :=
  if bool_decide (65 ≤ Str.code c ≤ 90) then ascii_of_nat (Str.code c + 32) else c.

Fixpoint asciiLowerCase (s : string) : string :=
  match s with
  | EmptyString => EmptyString
  | String c r => String (asciiLowerChar c) (asciiLowerCase r)
  end.

(** [document.createElement(name)]: a fresh element with nothing on it.  The
    element remembers the name it was created with. *)
Definition createElement `{Host} (name : string) : result element :=
  if validElementName name then Return (Element name [] [] [] [])
  else Throw (InvalidCharacterError name).

(** [document.createTextNode(data)] *)
Definition createTextNode (data : string) : node := TextNode data.

(** [e.addEventListener(type, handler)]: the wrapper the library registers
    forwards to [handler], so the handler stands for it. *)
Definition addEventListener (type : string) (handler : value) (e : element)
  : element :=
  match e with
  | Element t a p l c => Element t a p (l ++ [(type, handler)]) c
  end.

(** [e.className = s]: the [class] attribute of [e] becomes [s]. *)
Definition setClassName (s : string) (e : element) : element :=
  match e with
  | Element t a p l c => Element t (Obj.set "class" s a) p l c
  end.

(** [e[key] = v] for a property the element has: the host raises an
    exception, or the assignment is recorded.  What else the host makes of an
    assignment (reflecting it into an attribute or into children) is not part
    of the model. *)
Definition assignProperty `{Host} (key : string) (v : value) (e : element)
  : result element :=
  match assignmentError (elementName e) key v with
  | Some x => Throw (errorOf x)
  | None =>
      match e with
      | Element t a p l c => Return (Element t a (Obj.set key v p) l c)
      end
  end.

(** [e.setAttribute(name, s)] on an HTML element. *)
Definition setAttribute `{Host} (name s : string) (e : element) : result element :=
  if validAttributeName name then
    match e with
    | Element t a p l c => Return (Element t (Obj.set (asciiLowerCase name) s a) p l c)
    end
  else Throw (InvalidCharacterError name).

(** [e.appendChild(n)]: [n] becomes the last child.  Nodes are values here:
    that the DOM first detaches a node which already has a parent is not
    part of the model. *)
Definition appendChild (n : node) (e : element) : element :=
  match e with
  | Element t a p l c => Element t a p l (c ++ [n])
  end.

(** [isChildren(value)], the positional-overload test of [elem]. *)
Definition isChildren (v : value) : bool :=
  bool_decide (typeof v = "string")
  || bool_decide (typeof v = "number")
  || isArray v
  || instanceofHTMLElement v.

(** The body of the [forEach] callback in [setAttributesAndEvents]: what is
    done with one key and its value. *)
Definition applyOption `{Host} (e : element) (key : string) (v : value)
  : result element :=
  if bool_decide (typeof v = "function") && Str.startsWith "on" key then
    let eventName := Str.toLowerCase (Str.slice 2 key) in
    Return (addEventListener eventName v e)
  else if bool_decide (key = "class") then
    text ← String_ v;
    Return (setClassName text e)
  else if hasProperty (elementName e) key then
    assignProperty key v e
  else
    text ← String_ v;
    setAttribute key text e.

(** [setAttributesAndEvents(element, options)] *)
Definition setAttributesAndEvents `{Host} (e : element) (options : value)
  : result element :=
  keys ← Object_keys options;
  forEach (λ e key, applyOption e key (ownProperty options key)) keys e.

(** [appendChildren(parent, children)] *)
Fixpoint appendChildren `{Host} (parent : element) (children : value)
  : result element :=
  match children with
  | VArray items =>
      (fix each (l : list value) (p : element) : result element :=
         match l with
         | [] => Return p
         | child :: r => p' ← appendChildren p child; each r p'
         end) items parent
  | VNode (HTMLElement c) => Return (appendChild (HTMLElement c) parent)
  | VString _ | VNumber _ =>
      text ← String_ children;
      Return (appendChild (createTextNode text) parent)
  | _ =>
      (* the message is built first: [`... ${children}`] *)
      received ← ToString children;
      Throw (ChildrenError children)
  end.

(** [elem(tagName, options = {}, children)].  An omitted argument is
    [VUndefined].  The message of the tag-name error is built before the
    error is thrown: [`... ${tagName}`]. *)
Definition elem `{Host} (tagName options children : value) : result element :=
  let options := match options with VUndefined => VObject [] | _ => options end in
  match tagName with
  | VString s =>
      if bool_decide (Str.trim s = "") then
        received ← ToString tagName;
        Throw (TagNameError tagName)
      else
        element ← createElement s;
        let '(options, children) :=
          if isChildren options then (VObject [], options)
          else (options, children) in
        element ← setAttributesAndEvents element options;
        match children with
        | VUndefined | VNull => Return element
        | _ => appendChildren element children
        end
  | _ =>
      received ← ToString tagName;
      Throw (TagNameError tagName)
  end.

(* ===================================================================== *)
(** * JSON *)
(* ===================================================================== *)

(** A JSON document.  [localStorage] holds JSON texts; a text is identified
    with the document it denotes, so that [JSON.parse] of the text written
    for a document gives that document back. *)
#[warnings="-register-all"]
Inductive json : Type :=
| JNull
| JBool (b : bool)
| JNumber (z : Z)
| JString (s : string)
| JArray (elements : list json)
| JObject (members : list (string * json)).

(** [SerializeJSONProperty]: the document [JSON.stringify] writes for [v];
    [None] when it writes nothing ([undefined], a symbol, a function).  A
    non-finite number is written as [null]; in an array what writes nothing
    is written as [null], in an object it is left out; a BigInt cannot be
    written.  Functions are opaque: a [toJSON] method is not run. *)
Fixpoint serialize (v : value) : result (option json) :=
  match v with
  | VUndefined | VSymbol _ | VFunction _ => Return None
  | VNull => Return (Some JNull)
  | VBoolean b => Return (Some (JBool b))
  | VNumber (Finite z) => Return (Some (JNumber z))
  | VNumber _ => Return (Some JNull)
  | VBigInt _ => Throw (TypeError "Do not know how to serialize a BigInt")
  | VString s => Return (Some (JString s))
  | VArray items =>
      elements ←
        (fix each (l : list value) : result (list json) :=
           match l with
           | [] => Return []
           | x :: r => j ← serialize x; js ← each r; Return (default JNull j :: js)
           end) items;
      Return (Some (JArray elements))
  | VObject props =>
      members ←
        (fix each (l : list (string * value)) : result (list (string * json)) :=
           match l with
           | [] => Return []
           | (k, x) :: r =>
               j ← serialize x; ms ← each r;
               Return (match j with Some j => (k, j) :: ms | None => ms end)
           end) props;
      Return (Some (JObject members))
  | VNode _ => Return (Some (JObject []))
  end.

(** [JSON.stringify(v)] *)
Definition JSON_stringify (v : value) : result (option json) := serialize v.

(** The object built from members in order: a repeated name overwrites the
    earlier value in place. *)
Definition objectOfMembers {A : Type} (m : list (string * A)) : list (string * A) :=
  foldl (λ o kv, Obj.set kv.1 kv.2 o) [] m.

(** [JSON.parse(text)] for the text of document [j]. *)
Fixpoint JSON_parse (j : json) : value :=
  match j with
  | JNull => VNull
  | JBool b => VBoolean b
  | JNumber z => VNumber (Finite z)
  | JString s => VString s
  | JArray elements => VArray (JSON_parse <$> elements)
  | JObject members =>
      VObject (objectOfMembers ((λ kv, (kv.1, JSON_parse kv.2)) <$> members))
  end.

(* ===================================================================== *)
(** * State manager *)
(* ===================================================================== *)

Module stateManager.

(** One call of a registered callback: under which key it was registered,
    which callback, with which argument. *)
Definition invocation : Type := string * nat * value.

(** The ambient state the singleton works on.  Callbacks are observers, known
    by identity: running one is recorded in [invoked]; it neither throws nor
    calls back into the state manager. *)
Record state : Type := State {
  localStorage : gmap string json;
  callbacks : list (string * list nat);
  invoked : list invocation;
  console : list (string * error)
}.

(** Statements of a method: they run on the state, return or throw, and leave
    a state behind either way. *)
Definition M (A : Type) : Type := state → result A * state.

#[global] Instance M_ret : MRet M := λ A a s, (Return a, s).
#[global] Instance M_bind : MBind M := λ A B k m s,
  match m s with
  | (Return a, s') => k a s'
  | (Throw e, s') => (Throw e, s')
  end.

Definition throw {A : Type} (e : error) : M A := λ s, (Throw e, s).

(** A [result] computed without touching the state. *)
Definition lift {A : Type} (r : result A) : M A := λ s, (r, s).

(** [try { body } catch (error) { handler }] *)
Definition try_catch {A : Type} (body : M A) (handler : error → M A) : M A :=
  λ s,
    match body s with
    | (Return a, s') => (Return a, s')
    | (Throw e, s') => handler e s'
    end.

(** [localStorage.setItem(key, text)] *)
Definition setItem (key : string) (text : json) : M unit :=
  λ s, (Return (),
        State (<[key := text]> (localStorage s)) (callbacks s) (invoked s) (console s)).

(** [localStorage.getItem(key)] *)
Definition getItem (key : string) : M (option json) :=
  λ s, (Return (localStorage s !! key), s).

(** [localStorage.removeItem(key)] *)
Definition removeItem (key : string) : M unit :=
  λ s, (Return (),
        State (delete key (localStorage s)) (callbacks s) (invoked s) (console s)).

(** [localStorage.clear()] *)
Definition clearStorage : M unit :=
  λ s, (Return (), State ∅ (callbacks s) (invoked s) (console s)).

(** [console.error(label, error)] *)
Definition console_error (label : string) (e : error) : M unit :=
  λ s, (Return (),
        State (localStorage s) (callbacks s) (invoked s) (console s ++ [(label, e)])).

(** [callback(value)] for a callback registered under [key]. *)
Definition call (key : string) (value : value) (callback : nat) : M unit :=
  λ s, (Return (),
        State (localStorage s) (callbacks s) (invoked s ++ [(key, callback, value)])
              (console s)).

(** [l.forEach(f)] for statements [f]. *)
Fixpoint forEachM {B : Type} (f : B → M unit) (l : list B) : M unit :=
  match l with
  | [] => mret ()
  | b :: r => _ ← f b; forEachM f r
  end.

(** [_triggerCallbacks(key, value)] *)
Definition _triggerCallbacks (key : string) (value : value) : M unit :=
  λ s,
    match Obj.get key (callbacks s) with
    | Some registered => forEachM (call key value) registered s
    | None => (Return (), s)
    end.

(** The envelope [{ type, value }]. *)
Definition envelope (type : string) (v : value) : value :=
  VObject [("type", VString type); ("value", v)].

(** The text [JSON.stringify] returns for an envelope; for an object it
    always returns one. *)
Definition stringifyEnvelope (type : string) (value : value) : result json :=
  text ← JSON_stringify (envelope type value);
  Return (default JNull text).

(** The first statement of [set]: the text written for [value]. *)
Definition serialized (value : value) : result json :=
  match value with
  | VNull => Return JNull
  | _ =>
      if bool_decide (typeof value = "string")
         || bool_decide (typeof value = "number")
      then stringifyEnvelope (typeof value) value
      else if bool_decide (typeof value = "object")
      then stringifyEnvelope "object" value
      else Throw UnsupportedTypeError
  end.

(** [set(key, value)] *)
Definition set (key : string) (value : value) : M unit :=
  try_catch
    (serializedValue ← lift (serialized value);
     _ ← setItem key serializedValue;
     _triggerCallbacks key value)
    (λ error, console_error "Error setting value in localStorage:" error).

(** What [get] makes of what [getItem] returned.  An absent item and the
    text [null] both give [null]; what [JSON.parse] returns is destructured
    into [type] and [value], and [type] selects how [value] is restored. *)
Definition restored `{Host} (serializedValue : option json) : result value :=
  match serializedValue with
  | None => Return VNull
  | Some JNull => Return VNull
  | Some text =>
      let parsed := JSON_parse text in
      let type := ownProperty parsed "type" in
      let value := ownProperty parsed "value" in
      match type with
      | VString t =>
          if bool_decide (t = "string") then Return value
          else if bool_decide (t = "number") then
            n ← Number_ value; Return (VNumber n)
          else if bool_decide (t = "object") then Return value
          else Return VNull
      | _ => Return VNull
      end
  end.

(** [get(key)] *)
Definition get `{Host} (key : string) : M value :=
  try_catch
    (serializedValue ← getItem key;
     lift (restored serializedValue))
    (λ error,
       _ ← console_error "Error getting value from localStorage:" error;
       mret VNull).

(** [update(key, updater)] *)
Definition update `{Host} (key : string) (updater : value → value) : M value :=
  currentValue ← get key;
  let newValue := updater currentValue in
  _ ← set key newValue;
  mret newValue.

(** [remove(key)] *)
Definition remove (key : string) : M unit :=
  try_catch
    (_ ← removeItem key;
     _triggerCallbacks key VNull)
    (λ error, console_error "Error removing value from localStorage:" error).

(** [Object.keys(this.callbacks)] *)
Definition callbackKeys : M (list string) :=
  λ s, (Return (Obj.keys (callbacks s)), s).

(** [clear()] *)
Definition clear : M unit :=
  try_catch
    (_ ← clearStorage;
     keys ← callbackKeys;
     forEachM (λ key, _triggerCallbacks key VNull) keys)
    (λ error, console_error "Error clearing localStorage:" error).

(** [onChange(key, callback)] *)
Definition onChange (key : string) (callback : nat) : M unit :=
  λ s,
    let table :=
      match Obj.get key (callbacks s) with
      | None => Obj.set key [] (callbacks s)
      | Some _ => callbacks s
      end in
    match Obj.get key table with
    | Some registered =>
        (Return (),
         State (localStorage s) (Obj.set key (registered ++ [callback]) table)
               (invoked s) (console s))
    | None => (Throw (TypeError "Cannot read properties of undefined"), s)
    end.

(** The state of a fresh page with an empty store. *)
Definition initial : state := State ∅ [] [] [].

End stateManager.

(* ===================================================================== *)
(** * Hash router *)
(* ===================================================================== *)

(** The names a plain object inherits from [Object.prototype].  A lookup
    [table[key]] that finds no property of the table's own finds these.  The
    route table is read that way, and so is the callback registry, where what
    is found under these names is no list of callbacks: what the methods of
    the state manager do with the callbacks of a key is stated for the other
    keys. *)
Definition prototypeKeys : list string :=
  ["constructor"; "hasOwnProperty"; "isPrototypeOf"; "propertyIsEnumerable";
   "toLocaleString"; "toString"; "valueOf"; "__proto__";
   "__defineGetter__"; "__defineSetter__"; "__lookupGetter__";
   "__lookupSetter__"].

Module router.

(** A route: a function of no argument that returns an element. *)
Definition component : Type := unit → element.

(** What a lookup in the route table finds: a route of the table's own, a
    member of [Object.prototype], or nothing. *)
Inductive found : Type :=
| Route (c : component)
| Inherited (name : string)
| NoRoute.

(** [component()] for the member of [Object.prototype] found under [name],
    called as a plain function in module code, where [this] is [undefined]:
    [toString] returns a string, [constructor] a new object, [isPrototypeOf]
    without argument [false]; what is found under [__proto__] is the
    prototype itself, which cannot be called; every other member first
    converts [this] to an object, which fails. *)
Definition callInherited (name : string) : result value :=
  if bool_decide (name = "toString") then Return (VString "[object Undefined]")
  else if bool_decide (name = "constructor") then Return (VObject [])
  else if bool_decide (name = "isPrototypeOf") then Return (VBoolean false)
  else if bool_decide (name = "__proto__") then
    Throw (TypeError "component is not a function")
  else Throw (TypeError "Cannot convert undefined or null to object").

(** What [render] reads and writes: [window.location.hash] (empty, or [#]
    followed by the fragment) and the container element [app] it captured. *)
Record page : Type := Page {
  location_hash : string;
  app : element
}.

(** [app.innerHTML = ""]: the element loses its children. *)
Definition clearInnerHTML (e : element) : element :=
  match e with
  | Element t a p l _ => Element t a p l []
  end.

(** The path [render] looks up: [window.location.hash.slice(1) || "/"]. *)
Definition currentPath (p : page) : string :=
  let sliced := Str.slice 1 (location_hash p) in
  if bool_decide (sliced = "") then "/" else sliced.

(** [routes[hash] || routes["*"]] for a table that is a plain object holding
    [routes] as its own properties.  What is found under [hash], own or
    inherited, is an object and so is truthy: the wildcard is read only when
    nothing is found. *)
Definition lookupRoute (routes : gmap string component) (hash : string) : found :=
  match routes !! hash with
  | Some c => Route c
  | None =>
      if bool_decide (hash ∈ prototypeKeys) then Inherited hash
      else match routes !! "*" with
           | Some c => Route c
           | None => NoRoute
           end
  end.

(** [app.appendChild(v)] for a value that is no node. *)
Definition appendNoNode (v : value) : error :=
  TypeError "parameter 1 is not of type 'Node'".

(** The [render] closure of [hashRouter]. *)
Definition render (routes : gmap string component) (p : page)
  : result unit * page :=
  let hash := currentPath p in
  let component := lookupRoute routes hash in
  let p := Page (location_hash p) (clearInnerHTML (app p)) in
  match component with
  | Route c =>
      (Return (), Page (location_hash p) (appendChild (HTMLElement (c ())) (app p)))
  | Inherited name =>
      match callInherited name with
      | Return v => (Throw (appendNoNode v), p)
      | Throw e => (Throw e, p)
      end
  | NoRoute => (Throw (TypeError "component is not a function"), p)
  end.

(** The window [hashRouter] is called in: the hash, the elements of the
    document that have an id, and the route tables whose [render] listens to
    [hashchange], each with the id of its container. *)
Record window : Type := Window {
  hash : string;
  document : gmap string element;
  hashchange : list (gmap string component * string)
}.

(** [hashRouter(routes, appId = "app")].  An omitted [appId] is [None].  The
    function returned is [render routes] on the container found. *)
Definition hashRouter (routes : gmap string component) (appId : option string)
    (w : window) : result unit * window :=
  let appId := default "app" appId in
  match document w !! appId with
  | None => (Throw (NotFoundError appId), w)
  | Some app =>
      let w := Window (hash w) (document w) (hashchange w ++ [(routes, appId)]) in
      let '(r, p) := render routes (Page (hash w) app) in
      (r, Window (hash w) (<[appId := router.app p]> (document w)) (hashchange w))
  end.

End router.

(* ===================================================================== *)
(** * Link helper *)
(* ===================================================================== *)

(** [Boolean(v)] *)
Definition truthy (v : value) : bool :=
  match v with
  | VUndefined | VNull => false
  | VBoolean b => b
  | VNumber (Finite z) => negb (bool_decide (z = 0%Z))
  | VNumber NaN => false
  | VNumber _ => true
  | VBigInt z => negb (bool_decide (z = 0%Z))
  | VString s => negb (bool_decide (s = ""))
  | VSymbol _ | VFunction _ | VArray _ | VObject _ | VNode _ => true
  end.

(** [l.join(separator)]: [undefined] and [null] give the empty string. *)
Fixpoint join `{Host} (separator : string) (l : list value) : result string :=
  match l with
  | [] => Return ""
  | x :: r =>
      this ← match x with
             | VUndefined | VNull => Return ""
             | _ => ToString x
             end;
      match r with
      | [] => Return this
      | _ => rest ← join separator r; Return (this +:+ separator +:+ rest)
      end
  end.

(** The number a string of decimal digits denotes. *)
Fixpoint decimal (s : string) (acc : N) : option N :=
  match s with
  | EmptyString => Some acc
  | String c r =>
      if bool_decide (48 ≤ Str.code c ≤ 57)
      then decimal r (acc * 10 + N.of_nat (Str.code c - 48))
      else None
  end.

(** A property name is an array index when it is the canonical decimal form
    of an integer below 2^32 - 1. *)
Definition arrayIndex (key : string) : option N :=
  match key with
  | EmptyString => None
  | _ =>
      match decimal key 0 with
      | Some n =>
          if bool_decide (pretty n = key ∧ (n < 2 ^ 32 - 1)%N) then Some n
          else None
      | None => None
      end
  end.

(** Array indices are listed by ascending value. *)
Definition indexLe (a b : string * value) : Prop :=
  (default 0 (arrayIndex a.1) ≤ default 0 (arrayIndex b.1))%N.

#[global] Instance indexLe_dec : RelDecision indexLe :=
  λ a b, decide (default 0 (arrayIndex a.1) ≤ default 0 (arrayIndex b.1))%N.

(** The order in which an object lists its own properties: array indices in
    ascending order, then the other names in the order they were created. *)
Definition propertyOrder (o : list (string * value)) : list (string * value) :=
  merge_sort indexLe (filter (λ kv, is_Some (arrayIndex kv.1)) o)
  ++ filter (λ kv, ¬ is_Some (arrayIndex kv.1)) o.

(** An object literal [{ k1: v1, ..., ...spread }] given as the properties it
    defines, in order. *)
Definition objectLiteral (entries : list (string * value)) : list (string * value) :=
  propertyOrder (objectOfMembers entries).

Module link.

(** [props.class].  No built-in prototype has a property named [class], so
    what is read is the own property; [null] has no properties to read. *)
Definition readClass (props : value) : result value :=
  match props with
  | VUndefined | VNull =>
      Throw (TypeError "Cannot read properties of null (reading 'class')")
  | _ => Return (ownProperty props "class")
  end.

(** [const { class: _, ...otherProps } = props]: the own enumerable
    properties of [props] but [class]. *)
Definition otherProps (props : value) : result (list (string * value)) :=
  keys ← Object_keys props;
  Return ((λ key, (key, ownProperty props key))
            <$> filter (λ key, key ≠ "class") (keys : list string)).

(** [dynamicClass]: the class of the active link when the hash without its
    [#] is strictly equal to [href]. *)
Definition dynamicClass (location_hash : string) (href : value) : string :=
  match href with
  | VString s =>
      if bool_decide (Str.slice 1 location_hash = s) then "router-active" else ""
  | _ => ""
  end.

(** [combinedClass] = [[props.class, dynamicClass].filter(Boolean).join(" ")] *)
Definition combinedClass `{Host} (location_hash : string) (href props : value)
  : result string :=
  class ← readClass props;
  join " " (List.filter truthy [class; VString (dynamicClass location_hash href)]).

(** The options [Link] passes to [elem].  The click handler is a function
    created by the call; [handler] is its identity.  What the handler does
    when the browser calls it is not run here. *)
Definition options `{Host} (handler : nat) (location_hash : string)
    (href props : value) : result value :=
  let props := match props with VUndefined => VObject [] | _ => props end in
  combinedClass ← combinedClass location_hash href props;
  otherProps ← otherProps props;
  hrefText ← ToString href;
  Return (VObject (objectLiteral
            ([("href", VString ("#" +:+ hrefText));
              ("onclick", VFunction handler);
              ("class", VString combinedClass)] ++ otherProps))).

(** [Link(href, props = {}, children)], called while [window.location.hash]
    is [location_hash]. *)
Definition Link `{Host} (handler : nat) (location_hash : string)
    (href props children : value) : result element :=
  options ← options handler location_hash href props;
  elem (VString "a") options children.

End link.

(* ===================================================================== *)
(** * Vocabulary of the statements *)
(* ===================================================================== *)

(** The leaves of a children value in depth-first order: an array stands for
    the leaves of its elements, anything else for itself. *)
Fixpoint leaves (children : value) : list value :=
  match children with
  | VArray items => flat_map leaves items
  | _ => [children]
  end.

(** The node a leaf is appended as: an element as it is, a string or a number
    as a text node of its string form; nothing else is a child. *)
Definition childNode `{Host} (leaf : value) : option node :=
  match leaf with
  | VNode (HTMLElement c) => Some (HTMLElement c)
  | VString _ | VNumber _ => Some (TextNode (stringForm leaf))
  | _ => None
  end.

(** Appending one leaf: what is no child raises the invalid-children error,
    once the message has been built. *)
Definition appendLeaf `{Host} (parent : element) (leaf : value) : result element :=
  match childNode leaf with
  | Some n => Return (appendChild n parent)
  | None => received ← ToString leaf; Throw (ChildrenError leaf)
  end.

(** The errors that are not the library's own: raised by the language or by
    the DOM. *)
Definition raisedByHost (err : error) : Prop :=
  match err with
  | TypeError _ | InvalidCharacterError _ | DOMException _ => True
  | _ => False
  end.

(** Data that a JSON text holds as it is: [null], booleans, finite numbers,
    strings, and arrays and objects of such data, an object naming each
    property once. *)
Fixpoint jsonData (v : value) : bool :=
  match v with
  | VNull | VBoolean _ | VString _ | VNumber (Finite _) => true
  | VArray items => forallb jsonData items
  | VObject props =>
      forallb (λ kv, jsonData kv.2) props && bool_decide (NoDup (Obj.keys props))
  | _ => false
  end.

(** The kinds [set] documents: a string, a number, an object, or [null]. *)
Definition supported (v : value) : bool :=
  match v with
  | VNull | VString _ | VNumber _ | VObject _ => true
  | _ => false
  end.

(** The text of the envelope of type [type] around the document [value]. *)
Definition envelopeText (type : string) (value : json) : json :=
  JObject [("type", JString type); ("value", value)].

(** Supported values that are JSON data. *)
Definition storable (v : value) : bool := supported v && jsonData v.

(** A small host to run examples on.  Its string form of a value is the
    browser's for primitives, arrays, plain objects, text nodes and elements
    of the plain [HTMLElement] interface; a function is given a fixed source
    text. *)
Fixpoint sampleToString (v : value) : string :=
  match v with
  | VUndefined => "undefined"
  | VNull => "null"
  | VBoolean b => if b then "true" else "false"
  | VNumber (Finite z) => pretty z
  | VNumber NaN => "NaN"
  | VNumber Infinity => "Infinity"
  | VNumber NegInfinity => "-Infinity"
  | VBigInt z => pretty z
  | VString s => s
  | VSymbol d => "Symbol(" +:+ d +:+ ")"
  | VFunction _ => "function () {}"
  | VArray items =>
      (fix join (l : list value) : string :=
         match l with
         | [] => ""
         | x :: r =>
             let this :=
               match x with
               | VUndefined | VNull => ""
               | _ => sampleToString x
               end in
             match r with
             | [] => this
             | _ => this +:+ "," +:+ join r
             end
         end) items
  | VObject _ => "[object Object]"
  | VNode (TextNode _) => "[object Text]"
  | VNode (HTMLElement _) => "[object HTMLElement]"
  end.

(** The number a string of decimal digits denotes. *)
Fixpoint sampleDigits (s : string) (acc : Z) : option Z :=
  match s with
  | EmptyString => Some acc
  | String c r =>
      if bool_decide (48 ≤ Str.code c ≤ 57)
      then sampleDigits r (acc * 10 + Z.of_nat (Str.code c - 48))
      else None
  end.

(** Its numeric reading of a string is exact on decimal integer literals and
    on the empty string; every other string reads as [NaN]. *)
Definition sampleStringToNumber (s : string) : number :=
  match Str.trim s with
  | EmptyString => Finite 0
  | String "-" (String c r) => from_option (λ z, Finite (- z)) NaN (sampleDigits (String c r) 0)
  | String "+" (String c r) => from_option Finite NaN (sampleDigits (String c r) 0)
  | t => from_option Finite NaN (sampleDigits t 0)
  end.

Definition sampleName (s : string) : bool :=
  match s with
  | EmptyString => false
  | String c _ => bool_decide (97 ≤ Str.code c ≤ 122 ∨ 65 ≤ Str.code c ≤ 90)
  end.

Definition sampleHost : Host := {|
  hostToString := sampleToString;
  hostStringToNumber := sampleStringToNumber;
  hasProperty := λ _ key,
    bool_decide (key ∈ ["id"; "title"; "onclick"; "hidden"; "tagName"]);
  assignmentError := λ _ key _,
    if bool_decide (key = "tagName")
    then Some (HostTypeError "Cannot set property tagName which has only a getter")
    else None;
  validElementName := sampleName;
  validAttributeName := sampleName
|}.

(** The listener a key and its value become, when the value is a function
    and the key starts with [on]. *)
Definition handlerOf (kv : string * value) : option (string * value) :=
  if bool_decide (typeof kv.2 = "function") && Str.startsWith "on" kv.1
  then Some (Str.toLowerCase (Str.slice 2 kv.1), kv.2)
  else None.

(** Whether a BigInt lies in the value, at any depth of arrays and objects. *)
Fixpoint holdsBigInt (v : value) : bool :=
  match v with
  | VBigInt _ => true
  | VArray items => existsb holdsBigInt items
  | VObject props => existsb (λ kv, holdsBigInt kv.2) props
  | _ => false
  end.

(** A call of one method of the state manager. *)
Inductive methodCall : Type :=
| CallSet (key : string) (v : value)
| CallGet (key : string)
| CallUpdate (key : string) (updater : value → value)
| CallRemove (key : string)
| CallClear
| CallOnChange (key : string) (callback : nat).

(** The result of a call, as a value: [undefined] for the methods that
    return nothing. *)
Definition runCall `{Host} (c : methodCall) : stateManager.M value :=
  match c with
  | CallSet key v => _ ← stateManager.set key v; mret VUndefined
  | CallGet key => stateManager.get key
  | CallUpdate key updater => stateManager.update key updater
  | CallRemove key => _ ← stateManager.remove key; mret VUndefined
  | CallClear => _ ← stateManager.clear; mret VUndefined
  | CallOnChange key callback =>
      _ ← stateManager.onChange key callback; mret VUndefined
  end.

(** The state after a sequence of calls, each made whatever the one before
    did. *)
Definition afterCalls `{Host} (cs : list methodCall) (s : stateManager.state)
  : stateManager.state :=
  foldl (λ s c, (runCall c s).2) s cs.

(** The callbacks a sequence of calls registers under a key, in the order of
    the calls. *)
Definition registrations (key : string) (cs : list methodCall) : list nat :=
  omap (λ c, match c with
             | CallOnChange k callback =>
                 if bool_decide (k = key) then Some callback else None
             | _ => None
             end) cs.

(** The keys a sequence of calls gives to [onChange]. *)
Definition registeredKeys (cs : list methodCall) : list string :=
  omap (λ c, match c with
             | CallOnChange k _ => Some k
             | _ => None
             end) cs.

(** Whether an object in the value, at any depth, has a function under
    [toJSON], which [JSON.stringify] would run in place of writing the
    object. *)
Fixpoint hasToJSON (v : value) : bool :=
  match v with
  | VArray items => existsb hasToJSON items
  | VObject props =>
      existsb (λ kv, (bool_decide (kv.1 = "toJSON")
                      && bool_decide (typeof kv.2 = "function"))
                     || hasToJSON kv.2) props
  | _ => false
  end.

(* ===================================================================== *)
(** * Properties: strings and objects *)
(* ===================================================================== *)

(** Induction on values through array elements and object properties. *)
Lemma value_nested_ind (P : value → Prop) :
  (∀ items, Forall P items → P (VArray items)) →
  (∀ props, Forall (λ kv, P kv.2) props → P (VObject props)) →
  (∀ v, (∀ items, v ≠ VArray items) → (∀ props, v ≠ VObject props) → P v) →
  ∀ v, P v.
Proof.
  intros Harray Hobject Hleaf.
  fix IH 1. intros v.
  destruct v as [| |b|n|z|s|d|f|items|props|n];
    try (apply Hleaf; intros; discriminate).
  - apply Harray.
    revert items. fix IHitems 1. intros [|x r].
    + constructor.
    + constructor; [apply IH | apply IHitems].
  - apply Hobject.
    revert props. fix IHprops 1. intros [|[k x] r].
    + constructor.
    + constructor; [apply IH | apply IHprops].
Qed.

Lemma trim_spaces : Str.trim "  " = "".
Proof. reflexivity. Qed.

Lemma slice_cons (c : ascii) (s : string) : Str.slice 1 (String c s) = s.
Proof. reflexivity. Qed.

Lemma Obj_get_None {A : Type} (key : string) (o : list (string * A)) :
  Obj.get key o = None ↔ key ∉ Obj.keys o.
Proof.
  induction o as [|[k a] r IH]; simpl.
  - split; [intros _; apply not_elem_of_nil | done].
  - case_bool_decide as Hk.
    + subst k. split; [done | intros []; apply list_elem_of_here].
    + rewrite IH, not_elem_of_cons.
      split; [intros Hr; split; [congruence | exact Hr] | intros [_ Hr]; exact Hr].
Qed.

Lemma Obj_get_is_Some {A : Type} (key : string) (o : list (string * A)) :
  is_Some (Obj.get key o) ↔ key ∈ Obj.keys o.
Proof.
  destruct (Obj.get key o) as [a|] eqn:Hget.
  - split; [intros _ | by eauto].
    destruct (decide (key ∈ Obj.keys o)) as [|Hn]; [done|].
    apply Obj_get_None in Hn. congruence.
  - apply Obj_get_None in Hget. split; [by intros [? [=]] | done].
Qed.

Lemma Obj_set_fresh {A : Type} (key : string) (a : A) (o : list (string * A)) :
  key ∉ Obj.keys o → Obj.set key a o = o ++ [(key, a)].
Proof.
  induction o as [|[k b] r IH]; simpl; [done|].
  rewrite not_elem_of_cons. intros [Hne Hr].
  rewrite bool_decide_eq_false_2 by done. by rewrite IH.
Qed.

Lemma Obj_get_here {A : Type} (key : string) (a : A) (o : list (string * A)) :
  Obj.get key ((key, a) :: o) = Some a.
Proof. simpl. by rewrite bool_decide_eq_true_2. Qed.

Lemma Obj_get_wf_elem {A : Type} (key : string) (a : A) (o : list (string * A)) :
  Obj.wf o → (key, a) ∈ o → Obj.get key o = Some a.
Proof.
  unfold Obj.wf, Obj.keys.
  induction o as [|[k b] r IH]; simpl; intros Hwf Hin.
  - by apply elem_of_nil in Hin.
  - apply NoDup_cons in Hwf as [Hk Hr].
    apply elem_of_cons in Hin as [[= <- <-]|Hin].
    + by rewrite bool_decide_eq_true_2.
    + case_bool_decide as Heq; [|by apply IH].
      subst k. exfalso. apply Hk.
      apply list_elem_of_fmap. by exists (key, a).
Qed.

(** Building an object from members that name each property once gives the
    members back. *)
Lemma objectOfMembers_wf {A : Type} (m : list (string * A)) :
  Obj.wf m → objectOfMembers m = m.
Proof.
  unfold objectOfMembers.
  enough (∀ acc, NoDup (Obj.keys (acc ++ m)) →
            foldl (λ o kv, Obj.set kv.1 kv.2 o) acc m = acc ++ m) as Hgen.
  { intros Hwf. apply (Hgen []). exact Hwf. }
  induction m as [|[k a] r IH]; intros acc Hnd; simpl.
  - by rewrite app_nil_r.
  - rewrite Obj_set_fresh.
    + rewrite IH; rewrite <- app_assoc; [done | exact Hnd].
    + unfold Obj.keys in *. rewrite fmap_app in Hnd.
      apply NoDup_app in Hnd as (_ & Hdisj & _).
      intros Hin. apply (Hdisj k Hin). simpl. apply list_elem_of_here.
Qed.

(* ===================================================================== *)
(** * Properties: element builder *)
(* ===================================================================== *)

Lemma forEach_app {A B : Type} (f : A → B → result A) (l1 l2 : list B) (a : A) :
  forEach f (l1 ++ l2) a = (a' ← forEach f l1 a; forEach f l2 a').
Proof.
  revert a. induction l1 as [|b r IH]; intros a; simpl; [done|].
  destruct (f a b) as [a'|e]; simpl; [apply IH | done].
Qed.

(** A loop throws only what its body throws. *)
Lemma forEach_throws {A B : Type} (Q : error → Prop) (f : A → B → result A)
    (l : list B) (a : A) (err : error) :
  (∀ a b err, f a b = Throw err → Q err) →
  forEach f l a = Throw err → Q err.
Proof.
  intros Hf. revert a. induction l as [|b r IH]; intros a; simpl; [done|].
  destruct (f a b) as [a'|e] eqn:Hfab; simpl.
  - apply IH.
  - intros [= <-]. by eapply Hf.
Qed.

(** A loop keeps what its body keeps. *)
Lemma forEach_preserves {A B : Type} (Q : A → Prop) (f : A → B → result A)
    (l : list B) (a a' : A) :
  (∀ a b a', Q a → f a b = Return a' → Q a') →
  Q a → forEach f l a = Return a' → Q a'.
Proof.
  intros Hf. revert a. induction l as [|b r IH]; intros a Ha; simpl.
  - by intros [= <-].
  - destruct (f a b) as [a1|e] eqn:Hfab; simpl; [|done].
    apply IH. by eapply Hf.
Qed.

Section element_builder.
Context `{Host}.

Lemma ToString_returns (v : value) :
  hasStringForm v = true → ToString v = Return (stringForm v).
Proof. intros Hv. unfold ToString. by rewrite Hv. Qed.

Lemma ToString_throws (v : value) :
  hasStringForm v = false → ∃ what, ToString v = Throw (TypeError what).
Proof. intros Hv. unfold ToString. rewrite Hv. by eexists. Qed.

(** The conversion raises nothing but a [TypeError]. *)
Lemma ToString_error (v : value) (err : error) :
  ToString v = Throw err → hasStringForm v = false ∧ ∃ what, err = TypeError what.
Proof.
  unfold ToString. destruct (hasStringForm v) eqn:Hv; [done|].
  intros [= <-]. eauto.
Qed.


Lemma String_error (v : value) (err : error) :
  String_ v = Throw err → ∃ what, err = TypeError what.
Proof.
  intros Hthrow.
  assert (ToString v = Throw err) as Hconv by (by destruct v).
  by apply ToString_error in Hconv as [_ ?].
Qed.

Lemma forEach_singleton {A B : Type} (f : A → B → result A) (b : B) (a : A) :
  forEach f [b] a = f a b.
Proof. simpl. by destruct (f a b). Qed.

Lemma appendChildren_array (parent : element) (items : list value) :
  appendChildren parent (VArray items) = forEach appendChildren items parent.
Proof.
  simpl. revert parent.
  induction items as [|x r IH]; intros parent; simpl; [done|].
  destruct (appendChildren parent x) as [p'|e]; simpl; [apply IH | done].
Qed.

(** On what is no array, [appendChildren] appends one leaf. *)
Lemma appendChildren_leaf (parent : element) (leaf : value) :
  isArray leaf = false → appendChildren parent leaf = appendLeaf parent leaf.
Proof. by destruct leaf as [| |b|n|z|s|d|f|items|props|[data|c]]. Qed.

(** The recursion of [appendChildren] visits the leaves depth first, in
    order. *)
Lemma appendChildren_leaves (parent : element) (children : value) :
  appendChildren parent children = forEach appendLeaf (leaves children) parent.
Proof.
  revert parent. induction children as [items IH|props _|v Harr Hobj]
    using value_nested_ind; intros parent.
  - rewrite appendChildren_array. simpl. revert parent.
    induction IH as [|x r Hx _ IHr]; intros parent; simpl; [done|].
    rewrite forEach_app, Hx.
    destruct (forEach appendLeaf (leaves x) parent) as [p'|e]; simpl;
      [apply IHr | done].
  - change (leaves (VObject props)) with [VObject props].
    by rewrite forEach_singleton, appendChildren_leaf.
  - assert (isArray v = false) as Hv.
    { destruct v; try done. by destruct (Harr items). }
    replace (leaves v) with [v] by (by destruct v).
    by rewrite forEach_singleton, appendChildren_leaf.
Qed.

Lemma forEach_appendLeaf (parent : element) (ls : list value) :
  forEach appendLeaf ls parent =
    match List.find (λ leaf, bool_decide (childNode leaf = None)) ls with
    | Some bad => received ← ToString bad; Throw (ChildrenError bad)
    | None =>
        Return (Element (elementName parent) (attributes parent)
                  (properties parent) (listeners parent)
                  (childNodes parent ++ omap childNode ls))
    end.
Proof.
  revert parent. induction ls as [|leaf r IH]; intros parent; simpl.
  - rewrite app_nil_r. by destruct parent.
  - destruct (childNode leaf) as [n|] eqn:Hn; simpl.
    + replace (appendLeaf parent leaf) with (Return (appendChild n parent))
        by (unfold appendLeaf; by rewrite Hn).
      simpl. rewrite IH. destruct (List.find _ r); [done|].
      destruct parent; simpl. by rewrite <- app_assoc.
    + unfold appendLeaf. rewrite Hn. by destruct (ToString leaf).
Qed.

(** C5.  Children application is recursive: an array is flattened depth
    first and its leaves are appended in order; an element is appended as it
    is; a string or a number is appended as a text node of its string form.
    Any other value raises an error and nothing more is appended: the
    invalid-children error when the value has a string form to build the
    message from, and the [TypeError] of building the message when it has
    none, as a symbol has none. *)
Theorem appendChildren_flattens (parent : element) (children : value) :
  appendChildren parent children = forEach appendLeaf (leaves children) parent
  ∧ (∀ items, leaves (VArray items) = flat_map leaves items)
  ∧ (∀ c, appendLeaf parent (VNode (HTMLElement c))
          = Return (appendChild (HTMLElement c) parent))
  ∧ (∀ s, appendLeaf parent (VString s)
          = Return (appendChild (TextNode s) parent))
  ∧ (∀ n, appendLeaf parent (VNumber n)
          = Return (appendChild (TextNode (stringForm (VNumber n))) parent))
  ∧ (∀ leaf, isArray leaf = false → instanceofHTMLElement leaf = false →
             typeof leaf ≠ "string" → typeof leaf ≠ "number" →
             (hasStringForm leaf = true →
                appendChildren parent leaf = Throw (ChildrenError leaf))
             ∧ (hasStringForm leaf = false →
                  ∃ what, appendChildren parent leaf = Throw (TypeError what)))
  ∧ (∀ description,
       appendChildren parent (VSymbol description)
       = Throw (TypeError "Cannot convert a Symbol value to a string"))
  ∧ appendChildren parent children =
      match List.find (λ leaf, bool_decide (childNode leaf = None))
                      (leaves children) with
      | Some bad => received ← ToString bad; Throw (ChildrenError bad)
      | None =>
          Return (Element (elementName parent) (attributes parent)
                    (properties parent) (listeners parent)
                    (childNodes parent ++ omap childNode (leaves children)))
      end.
Proof.
  split_and!; try done.
  - apply appendChildren_leaves.
  - intros leaf Harr Helem Hstr Hnum.
    assert (appendChildren parent leaf
            = (received ← ToString leaf; Throw (ChildrenError leaf))) as ->
      by (by destruct leaf as [| |b|n|z|s|d|f|items|props|[data|c]]).
    split; intros Hform.
    + by rewrite ToString_returns.
    + destruct (ToString_throws leaf Hform) as [what ->]. by exists what.
  - rewrite appendChildren_leaves. apply forEach_appendLeaf.
Qed.

(** Over an object that names each property once, visiting the keys and
    reading each value back is visiting the properties. *)
Lemma setAttributesAndEvents_object (e : element) (props : list (string * value)) :
  Obj.wf props →
  setAttributesAndEvents e (VObject props)
  = forEach (λ e kv, applyOption e kv.1 kv.2) props e.
Proof.
  intros Hwf. unfold setAttributesAndEvents. simpl.
  enough (∀ l e, (∀ kv, kv ∈ l → Obj.get kv.1 props = Some kv.2) →
            forEach (λ e key, applyOption e key
                       (default VUndefined (Obj.get key props))) (Obj.keys l) e
            = forEach (λ e kv, applyOption e kv.1 kv.2) l e) as Hgen.
  { apply Hgen. intros [k v] Hin. by apply Obj_get_wf_elem. }
  induction l as [|[k v] r IH]; intros e' Hl; simpl; [done|].
  pose proof (Hl (k, v) (list_elem_of_here _ _)) as Hk. simpl in Hk.
  rewrite Hk. simpl.
  destruct (applyOption e' k v) as [e1|err]; simpl; [|done].
  apply IH. intros kv Hin. apply Hl. by apply list_elem_of_further.
Qed.


Lemma applyOption_keeps (e e' : element) (key : string) (v : value) :
  applyOption e key v = Return e' →
  elementName e' = elementName e ∧ childNodes e' = childNodes e.
Proof.
  unfold applyOption, assignProperty, setAttribute.
  destruct e as [t a p l c]; simpl.
  destruct (String_ v) as [text|err]; simpl;
    repeat case_match; intros [= <-]; done.
Qed.

Lemma setAttributesAndEvents_keeps (e e' : element) (options : value) :
  setAttributesAndEvents e options = Return e' →
  elementName e' = elementName e ∧ childNodes e' = childNodes e.
Proof.
  unfold setAttributesAndEvents.
  destruct (Object_keys options) as [keys|err]; simpl; [|done].
  apply (forEach_preserves
           (λ x, elementName x = elementName e ∧ childNodes x = childNodes e));
    [|done].
  intros a key a' [Hn Hc] Ha. apply applyOption_keeps in Ha as [-> ->]. done.
Qed.

(** Applying one option raises only what the language and the host raise. *)
Lemma applyOption_throws (e : element) (key : string) (v : value) (err : error) :
  applyOption e key v = Throw err → raisedByHost err.
Proof.
  unfold applyOption, assignProperty, setAttribute. destruct e as [t a p l c].
  destruct (String_ v) as [text|err'] eqn:Htext; simpl.
  - repeat case_match; intros [= <-]; try done. by destruct h.
  - apply String_error in Htext as [what ->].
    repeat case_match; intros [= <-]; try done. by destruct h.
Qed.

(** Applying options never raises an error of the library's own. *)
Lemma setAttributesAndEvents_throws (e : element) (options : value) (err : error) :
  setAttributesAndEvents e options = Throw err → raisedByHost err.
Proof.
  unfold setAttributesAndEvents.
  destruct (Object_keys options) as [keys|err'] eqn:Hkeys; simpl.
  - apply (forEach_throws raisedByHost). intros a key err'.
    apply applyOption_throws.
  - intros [= <-]. by destruct options; simplify_eq/=.
Qed.

(** Appending children raises the invalid-children error of a leaf that is
    no child, or the [TypeError] of building its message. *)
Lemma appendChildren_throws (parent : element) (children : value) (err : error) :
  appendChildren parent children = Throw err →
  ∃ bad, bad ∈ leaves children ∧ childNode bad = None
         ∧ (err = ChildrenError bad ∧ hasStringForm bad = true
            ∨ (∃ what, err = TypeError what) ∧ hasStringForm bad = false).
Proof.
  rewrite appendChildren_leaves, forEach_appendLeaf.
  destruct (List.find _ _) as [bad|] eqn:Hfind; [|done].
  apply find_some in Hfind as [Hin Hbad].
  apply bool_decide_eq_true_1 in Hbad. intros Hthrow.
  exists bad. split_and!; [by apply list_elem_of_In | done |].
  destruct (ToString bad) as [text|err'] eqn:Htext; simpl in Hthrow.
  - left. injection Hthrow as <-. split; [done|].
    destruct (hasStringForm bad) eqn:Hform; [done|].
    destruct (ToString_throws bad Hform) as [what Hw]. congruence.
  - right. injection Hthrow as <-.
    apply ToString_error in Htext as [Hform Hwhat]. done.
Qed.

Lemma appendChildren_returns (parent e : element) (children : value) :
  appendChildren parent children = Return e →
  e = Element (elementName parent) (attributes parent) (properties parent)
        (listeners parent) (childNodes parent ++ omap childNode (leaves children))
  ∧ Forall (λ leaf, is_Some (childNode leaf)) (leaves children).
Proof.
  rewrite appendChildren_leaves, forEach_appendLeaf.
  destruct (List.find _ _) as [bad|] eqn:Hfind;
    [by destruct (ToString bad)|].
  intros [= <-]. split; [done|].
  apply Forall_forall. intros leaf Hin%list_elem_of_In.
  pose proof (find_none _ _ Hfind leaf Hin) as Hb. simpl in Hb.
  apply bool_decide_eq_false_1 in Hb.
  by destruct (childNode leaf); [eauto|].
Qed.

(** Leaves that are all children are all appended. *)
Lemma appendChildren_accepts (parent : element) (children : value) :
  Forall (λ leaf, is_Some (childNode leaf)) (leaves children) →
  appendChildren parent children
  = Return (Element (elementName parent) (attributes parent) (properties parent)
              (listeners parent)
              (childNodes parent ++ omap childNode (leaves children))).
Proof.
  intros Hall. rewrite appendChildren_leaves, forEach_appendLeaf.
  destruct (List.find _ _) as [bad|] eqn:Hfind; [|done].
  apply find_some in Hfind as [Hin Hbad].
  apply bool_decide_eq_true_1 in Hbad.
  rewrite Forall_forall in Hall.
  destruct (Hall bad (proj2 (list_elem_of_In _ _) Hin)) as [n Hn]. congruence.
Qed.

(** The first leaf that is no child is the one that raises. *)
Lemma appendChildren_first_invalid (parent : element) (children bad : value)
    (before after : list value) :
  leaves children = before ++ bad :: after →
  Forall (λ leaf, is_Some (childNode leaf)) before →
  childNode bad = None →
  appendChildren parent children
  = (received ← ToString bad; Throw (ChildrenError bad)).
Proof.
  intros Hleaves Hbefore Hbad.
  rewrite appendChildren_leaves, forEach_appendLeaf, Hleaves.
  enough (List.find (λ leaf, bool_decide (childNode leaf = None))
            (before ++ bad :: after) = Some bad) as -> by done.
  clear Hleaves. induction Hbefore as [|leaf r [n Hn] _ IH]; simpl.
  - by rewrite bool_decide_eq_true_2.
  - rewrite bool_decide_eq_false_2 by congruence. exact IH.
Qed.

(** With a children value in second position, [elem] creates the element and
    goes straight to the children. *)
Lemma elem_second_children (s : string) (x third : value) :
  isChildren x = true →
  elem (VString s) x third
  = if bool_decide (Str.trim s = "") then Throw (TagNameError (VString s))
    else element ← createElement s; appendChildren element x.
Proof.
  intros Hx. unfold elem.
  assert ((match x with VUndefined => VObject [] | _ => x end) = x) as ->
    by (by destruct x).
  rewrite Hx. case_bool_decide; [done|].
  destruct (createElement s) as [e|err]; simpl; [|done].
  destruct x as [| |b|n|z|str|d|f|items|props|[data|c]]; done.
Qed.

(** [elem] on a tag name that fails the test: the message is built, then the
    tag-name error is thrown. *)
Lemma elem_refused_tagName (tagName options children : value) :
  ¬ (∃ s, tagName = VString s ∧ Str.trim s ≠ "") →
  elem tagName options children
  = (received ← ToString tagName; Throw (TagNameError tagName)).
Proof.
  intros Hnot. destruct tagName as [| |b|n|z|s|d|f|items|props|nd]; try done.
  unfold elem. case_bool_decide as Hs; [done|].
  destruct Hnot. by exists s.
Qed.

Lemma elem_refused_never_returns (tagName options children : value) (e : element) :
  ¬ (∃ s, tagName = VString s ∧ Str.trim s ≠ "") →
  elem tagName options children ≠ Return e.
Proof.
  intros Hnot. rewrite elem_refused_tagName by done.
  by destruct (ToString tagName).
Qed.

(** C6.  When the second argument of [elem] is itself a children value (a
    string, a number, an element or an array) it is taken as the children
    and the options are empty: the call is the call with empty options and
    these children, whatever comes third; an element it returns has no
    attribute, property or listener and has the children the value
    describes; and it does return that element when the tag name is accepted
    and every leaf of the value is a child. *)
Theorem elem_positional_overload (tagName x third : value) :
  isChildren x = true →
  elem tagName x third = elem tagName (VObject []) x
  ∧ (∀ e, elem tagName x third = Return e →
       attributes e = [] ∧ properties e = [] ∧ listeners e = []
       ∧ childNodes e = omap childNode (leaves x)
       ∧ Forall (λ leaf, is_Some (childNode leaf)) (leaves x))
  ∧ (∀ s, tagName = VString s → Str.trim s ≠ "" → validElementName s = true →
       Forall (λ leaf, is_Some (childNode leaf)) (leaves x) →
       elem tagName x third
       = Return (Element s [] [] [] (omap childNode (leaves x)))).
Proof.
  intros Hx. split_and!.
  - destruct tagName as [| |b|n|z|s|d|f|items|props|nd]; try done.
    rewrite elem_second_children by done.
    unfold elem. simpl. case_bool_decide; [done|].
    destruct (createElement s) as [e|err]; simpl; [|done].
    destruct x as [| |b|n|z|str|d|f|items|props|[data|c]]; done.
  - intros e. destruct tagName as [| |b|n|z|s|d|f|items|props|nd];
      try (intros Hret; exfalso; revert Hret;
           apply elem_refused_never_returns; by intros (? & ? & ?)).
    rewrite elem_second_children by done. case_bool_decide; [done|].
    unfold createElement. destruct (validElementName s); simpl; [|done].
    intros [-> Hall]%appendChildren_returns. done.
  - intros s -> Hs Hvalid Hall. rewrite elem_second_children by done.
    rewrite bool_decide_eq_false_2 by done.
    unfold createElement. rewrite Hvalid. simpl.
    by rewrite appendChildren_accepts.
Qed.

(** [elem] on a tag name that passes the test. *)
Lemma elem_accepted_tagName (s : string) (options children : value) :
  Str.trim s ≠ "" →
  elem (VString s) options children
  = (element ← createElement s;
     if isChildren options then appendChildren element options
     else
       element ← setAttributesAndEvents element
                   (match options with VUndefined => VObject [] | _ => options end);
       match children with
       | VUndefined | VNull => Return element
       | _ => appendChildren element children
       end).
Proof.
  intros Hs. destruct (isChildren options) eqn:Hopt.
  - rewrite elem_second_children by done. by rewrite bool_decide_eq_false_2.
  - unfold elem. rewrite bool_decide_eq_false_2 by done.
    assert (isChildren (match options with VUndefined => VObject [] | _ => options end)
            = false) as -> by (by destruct options).
    done.
Qed.

(** Past the test of the tag name, [elem] never raises the tag-name error. *)
Lemma elem_accepted_no_tagName_error (s : string) (options children received : value) :
  Str.trim s ≠ "" →
  elem (VString s) options children ≠ Throw (TagNameError received).
Proof.
  intros Hs Hthrow. rewrite elem_accepted_tagName in Hthrow by done.
  unfold createElement in Hthrow.
  destruct (validElementName s); simpl in Hthrow; [|done].
  destruct (isChildren options).
  { apply appendChildren_throws in Hthrow as (bad & _ & _ & [[? _]|[[? ?] _]]);
      done. }
  destruct (setAttributesAndEvents _ _) as [e|err] eqn:Hset; simpl in Hthrow.
  - assert (appendChildren e children = Throw (TagNameError received)) as Happ
      by (by destruct children).
    apply appendChildren_throws in Happ as (bad & _ & _ & [[? _]|[[? ?] _]]);
      done.
  - injection Hthrow as ->.
    by apply setAttributesAndEvents_throws in Hset.
Qed.

(** C7, as the code has it.  For a [tagName] that has a string form, [elem]
    raises the tag-name error exactly when [tagName] is not a string or is a
    string that is empty once trimmed of white space; the error carries the
    value received. *)
Theorem elem_tagName_error (tagName options children : value) :
  hasStringForm tagName = true →
  ((∃ received, elem tagName options children = Throw (TagNameError received))
   ↔ ¬ (∃ s, tagName = VString s ∧ Str.trim s ≠ "")).
Proof.
  intros Hform. split.
  - intros [received Hthrow] (s & -> & Hs).
    by apply elem_accepted_no_tagName_error in Hthrow.
  - intros Hnot. exists tagName.
    by rewrite elem_refused_tagName, ToString_returns.
Qed.

Lemma leaves_elem_of (x : value) (items : list value) :
  x ∈ items → isArray x = false → x ∈ leaves (VArray items).
Proof.
  intros Hin Hx. simpl. apply list_elem_of_In, in_flat_map.
  exists x. split; [by apply list_elem_of_In|].
  destruct x; simpl; try (by left). done.
Qed.

(** A children value with a leaf that is no child makes [appendChildren]
    throw, however deep the leaf lies. *)
Lemma appendChildren_invalid_leaf (parent : element) (children x : value) :
  x ∈ leaves children → childNode x = None →
  ∃ err, appendChildren parent children = Throw err.
Proof.
  intros Hin Hx.
  destruct (appendChildren parent children) as [e|err] eqn:Happ; [|by eauto].
  apply appendChildren_returns in Happ as [_ Hall].
  rewrite Forall_forall in Hall.
  destruct (Hall x Hin) as [n Hn]. congruence.
Qed.

(** C9.  As the third argument of [elem], [null] or [undefined] is accepted
    and appends nothing: the call is the call without children, what it
    returns has no child, and with a tag name the host accepts and no options
    it returns the bare element.  Inside an array of children, directly or in
    a nested array, the same [null] or [undefined] is a leaf of the
    traversal: an array that holds it is never accepted; when the traversal
    reaches it, the leaves before it being children, it raises the
    invalid-children error for it; and when every leaf of the array has a
    string form, what the array raises is the invalid-children error of a
    leaf that is no child. *)
Theorem elem_null_children (tagName options children : value) :
  children = VNull ∨ children = VUndefined →
  isChildren options = false →
  elem tagName options children = elem tagName options VUndefined
  ∧ (∀ e, elem tagName options children = Return e → childNodes e = [])
  ∧ (∀ s, Str.trim s ≠ "" → validElementName s = true →
       elem (VString s) VUndefined children = Return (Element s [] [] [] []))
  ∧ (∀ items, children ∈ items → children ∈ leaves (VArray items))
  ∧ (∀ parent items, children ∈ leaves (VArray items) →
       ∃ err, appendChildren parent (VArray items) = Throw err)
  ∧ (∀ parent items, children ∈ leaves (VArray items) →
       Forall (λ leaf, hasStringForm leaf = true) (leaves (VArray items)) →
       ∃ bad, childNode bad = None
              ∧ appendChildren parent (VArray items) = Throw (ChildrenError bad))
  ∧ (∀ parent items before after,
       leaves (VArray items) = before ++ children :: after →
       Forall (λ leaf, is_Some (childNode leaf)) before →
       appendChildren parent (VArray items) = Throw (ChildrenError children))
  ∧ (∀ s items before after, Str.trim s ≠ "" → validElementName s = true →
       leaves (VArray items) = before ++ children :: after →
       Forall (λ leaf, is_Some (childNode leaf)) before →
       elem (VString s) VUndefined (VArray items)
       = Throw (ChildrenError children)).
Proof.
  intros Hc Hopt.
  assert (isArray children = false ∧ childNode children = None
          ∧ ToString children = Return (stringForm children))
    as (Harr & Hnode & Htext) by (by destruct Hc as [-> | ->]).
  split_and!.
  - destruct Hc as [-> | ->]; [|done].
    destruct tagName as [| |b|n|z|s|d|f|items|props|nd]; try done.
    unfold elem. case_bool_decide; [done|].
    destruct (createElement s) as [e|err]; simpl; [|done].
    set (given := match options with VUndefined => VObject [] | _ => options end).
    destruct (isChildren given); [done|].
    by destruct (setAttributesAndEvents e given).
  - intros e. destruct tagName as [| |b|n|z|s|d|f|items|props|nd];
      try (intros Hret; exfalso; revert Hret;
           apply elem_refused_never_returns; by intros (? & ? & ?)).
    unfold elem. case_bool_decide; [done|].
    unfold createElement. destruct (validElementName s); simpl; [|done].
    assert (isChildren (match options with VUndefined => VObject [] | _ => options end)
            = false) as -> by (by destruct options).
    destruct (setAttributesAndEvents _ _) as [e'|err] eqn:Hset; simpl; [|done].
    apply setAttributesAndEvents_keeps in Hset as [_ Hkids].
    by destruct Hc as [-> | ->]; intros [= <-].
  - intros s Hs Hvalid. rewrite elem_accepted_tagName by done.
    unfold createElement. rewrite Hvalid. simpl.
    by destruct Hc as [-> | ->].
  - intros items Hin. by apply leaves_elem_of.
  - intros parent items Hin.
    by apply (appendChildren_invalid_leaf parent (VArray items) children).
  - intros parent items Hin Hforms.
    destruct (appendChildren_invalid_leaf parent (VArray items) children Hin Hnode)
      as [err Hthrow].
    destruct (appendChildren_throws _ _ _ Hthrow)
      as (bad & Hbad & Hno & [[-> _] | [_ Hform]]).
    + by exists bad.
    + rewrite Forall_forall in Hforms. rewrite (Hforms bad Hbad) in Hform. done.
  - intros parent items before after Hleaves Hbefore.
    rewrite (appendChildren_first_invalid _ _ _ _ _ Hleaves Hbefore Hnode).
    by rewrite Htext.
  - intros s items before after Hs Hvalid Hleaves Hbefore.
    rewrite elem_accepted_tagName by done.
    unfold createElement. rewrite Hvalid.
    change (isChildren VUndefined) with false. cbn -[appendChildren].
    rewrite (appendChildren_first_invalid _ _ _ _ _ Hleaves Hbefore Hnode).
    by rewrite Htext.
Qed.

End element_builder.

(** ** The element builder on concrete calls *)

(** [elem("div", {class: "a"}, "hi")] *)
Example elem_div_class_hi :
  @elem sampleHost (VString "div") (VObject [("class", VString "a")]) (VString "hi")
  = Return (Element "div" [("class", "a")] [] [] [TextNode "hi"]).
Proof. reflexivity. Qed.

(** [elem("div", ["x", "y"])] *)
Example elem_div_x_y :
  @elem sampleHost (VString "div") (VArray [VString "x"; VString "y"]) VUndefined
  = Return (Element "div" [] [] [] [TextNode "x"; TextNode "y"]).
Proof. reflexivity. Qed.

(** Nested arrays are read depth first; the number is printed. *)
Example elem_nested_children :
  @elem sampleHost (VString "ul") VUndefined
    (VArray [VString "a"; VArray [VNumber (Finite 2); VArray []; VString "c"];
             VNode (HTMLElement (Element "li" [] [] [] []))])
  = Return (Element "ul" [] [] []
              [TextNode "a"; TextNode "2"; TextNode "c";
               HTMLElement (Element "li" [] [] [] [])]).
Proof. vm_compute. reflexivity. Qed.

(** A handler under [onClick] listens to [click]; [onclick] with a string is
    no handler and is assigned as the property the element has; an unknown
    key becomes an attribute, the key [class] the class attribute. *)
Example elem_options_dispatch :
  @elem sampleHost (VString "button")
    (VObject [("onClick", VFunction 7); ("onclick", VString "go()");
              ("onhover", VFunction 8); ("id", VString "b");
              ("data-Role", VNumber (Finite 3)); ("class", VNull)])
    VUndefined
  = Return (Element "button"
              [("data-role", "3"); ("class", "null")]
              [("onclick", VString "go()"); ("id", VString "b")]
              [("click", VFunction 7); ("hover", VFunction 8)]
              []).
Proof. vm_compute. reflexivity. Qed.

(** A text node is an object that is no [HTMLElement]: not a child. *)
Example elem_text_node_child :
  @elem sampleHost (VString "p") VUndefined (VNode (TextNode "t"))
  = Throw (ChildrenError (VNode (TextNode "t"))).
Proof. reflexivity. Qed.

(** [null] in the place of the options is no object to read keys from. *)
Example elem_null_options :
  @elem sampleHost (VString "p") VNull (VString "t")
  = Throw (TypeError "Cannot convert undefined or null to object").
Proof. reflexivity. Qed.

(** A symbol has no string form: as tag name and as child it makes the
    building of the error message fail, and the error raised is the
    [TypeError] of the conversion, not the error of the library. *)
Example elem_symbol_arguments :
  @elem sampleHost (VSymbol "t") VUndefined VUndefined
  = Throw (TypeError "Cannot convert a Symbol value to a string")
  ∧ @elem sampleHost (VString "div") (VObject []) (VSymbol "x")
    = Throw (TypeError "Cannot convert a Symbol value to a string")
  ∧ @elem sampleHost (VString "div") VUndefined (VArray [VSymbol "x"; VNull])
    = Throw (TypeError "Cannot convert a Symbol value to a string")
  ∧ @elem sampleHost (VArray [VNull; VSymbol "t"]) VUndefined VUndefined
    = Throw (TypeError "Cannot convert a Symbol value to a string")
  ∧ @elem sampleHost (VObject [("toString", VNull)]) VUndefined VUndefined
    = Throw (TypeError "Cannot convert object to primitive value")
  ∧ @elem sampleHost (VNumber (Finite 5)) VUndefined VUndefined
    = Throw (TagNameError (VNumber (Finite 5))).
Proof. split_and!; reflexivity. Qed.

(** A property that can only be read refuses the assignment; a value without
    string form cannot become an attribute. *)
Example elem_refused_options :
  @elem sampleHost (VString "div") (VObject [("tagName", VString "p")]) VUndefined
  = Throw (TypeError "Cannot set property tagName which has only a getter")
  ∧ @elem sampleHost (VString "div")
      (VObject [("data-x", VObject [("toString", VNull)])]) VUndefined
    = Throw (TypeError "Cannot convert object to primitive value")
  ∧ @elem sampleHost (VString "div") (VObject [("data-x", VSymbol "s")]) VUndefined
    = Return (Element "div" [("data-x", "Symbol(s)")] [] [] []).
Proof. split_and!; reflexivity. Qed.


Lemma elem_positional_overload_witness :
  @elem sampleHost (VString "div") (VArray [VString "x"; VString "y"]) (VString "z")
  = Return (Element "div" [] [] [] [TextNode "x"; TextNode "y"]).
Proof.
  destruct (@elem_positional_overload sampleHost (VString "div")
              (VArray [VString "x"; VString "y"]) (VString "z"))
    as (_ & _ & Hreturns); [reflexivity|].
  apply (Hreturns "div"); [reflexivity | discriminate | reflexivity |].
  repeat constructor; by eexists.
Defined.

Lemma elem_null_children_witness :
  @elem sampleHost (VString "div") (VObject []) VNull
  = @elem sampleHost (VString "div") (VObject []) VUndefined
  ∧ @elem sampleHost (VString "div") VUndefined
      (VArray [VString "x"; VArray [VNull]])
    = Throw (ChildrenError VNull).
Proof.
  destruct (@elem_null_children sampleHost (VString "div") (VObject []) VNull)
    as (Hsame & _ & _ & _ & _ & _ & _ & Harray); [by left | reflexivity |].
  split; [exact Hsame|].
  apply (Harray "div" [VString "x"; VArray [VNull]] [VString "x"] []);
    [discriminate | reflexivity | reflexivity |].
  repeat constructor; by eexists.
Defined.

Lemma appendChildren_flattens_witness :
  @appendChildren sampleHost (Element "p" [] [] [] []) (VSymbol "x")
  = Throw (TypeError "Cannot convert a Symbol value to a string").
Proof.
  destruct (@appendChildren_flattens sampleHost (Element "p" [] [] [] [])
              (VSymbol "x")) as (_ & _ & _ & _ & _ & _ & Hsymbol & _).
  apply Hsymbol.
Defined.

Lemma elem_tagName_error_witness :
  (¬ ∃ received,
       @elem sampleHost (VString "div") VUndefined VUndefined
       = Throw (TagNameError received))
  ∧ ∃ received,
      @elem sampleHost (VNumber (Finite 5)) VUndefined VUndefined
      = Throw (TagNameError received).
Proof.
  split.
  - intros Hraised.
    apply (@elem_tagName_error sampleHost (VString "div") VUndefined VUndefined)
      in Hraised; [|reflexivity].
    apply Hraised. exists "div". split; [reflexivity | discriminate].
  - apply (@elem_tagName_error sampleHost (VNumber (Finite 5)) VUndefined
             VUndefined); [reflexivity|].
    intros (s & Hs & _). discriminate Hs.
Defined.

(** C7 as stated fails: a string of two spaces is a non-empty string, and
    [elem] raises the tag-name error on it, under every host and whatever the
    other arguments are. *)
Lemma elem_blank_tagName_raises :
  "  " ≠ ""
  ∧ ∀ (H : Host) (options children : value),
      elem (VString "  ") options children = Throw (TagNameError (VString "  ")).
Proof. split; [discriminate | reflexivity]. Qed.

(* ===================================================================== *)
(** * Properties: JSON *)
(* ===================================================================== *)

Lemma serialize_array (items : list value) (elements : list json) :
  Forall2 (λ x j, serialize x = Return (Some j)) items elements →
  serialize (VArray items) = Return (Some (JArray elements)).
Proof.
  intros Hall. simpl.
  enough ((fix each (l : list value) : result (list json) :=
             match l with
             | [] => Return []
             | x :: r => j ← serialize x; js ← each r; Return (default JNull j :: js)
             end) items = Return elements) as -> by done.
  induction Hall as [|x j r js Hx _ IH]; [done|].
  rewrite Hx. simpl. rewrite IH. done.
Qed.

Lemma serialize_object (props : list (string * value)) (members : list (string * json)) :
  Forall2 (λ kx kj, kx.1 = kj.1 ∧ serialize kx.2 = Return (Some kj.2)) props members →
  serialize (VObject props) = Return (Some (JObject members)).
Proof.
  intros Hall. simpl.
  enough ((fix each (l : list (string * value)) : result (list (string * json)) :=
             match l with
             | [] => Return []
             | (k, x) :: r =>
                 j ← serialize x; ms ← each r;
                 Return (match j with Some j => (k, j) :: ms | None => ms end)
             end) props = Return members) as -> by done.
  induction Hall as [|[k x] [k' j] r ms [Hk Hx] _ IH]; [done|].
  simpl in Hk, Hx. subst k'. rewrite Hx. simpl. rewrite IH. done.
Qed.

(** JSON data is written as a document that parses back to it. *)
Lemma serialize_parse (v : value) :
  jsonData v = true →
  ∃ j, serialize v = Return (Some j) ∧ JSON_parse j = v.
Proof.
  induction v as [items IH|props IH|v Harr Hobj] using value_nested_ind;
    intros Hdata.
  - assert (∃ js, Forall2 (λ x j, serialize x = Return (Some j)) items js
                  ∧ JSON_parse <$> js = items) as (js & Hjs & Hback).
    { simpl in Hdata. induction IH as [|x r Hx _ IHr]; [by exists []|].
      simpl in Hdata. apply andb_true_iff in Hdata as [Hdx Hdr].
      destruct (Hx Hdx) as (j & Hj & Hpj), (IHr Hdr) as (js & Hjs & Hpjs).
      exists (j :: js). split; [by constructor|].
      by rewrite fmap_cons, Hpjs, Hpj. }
    exists (JArray js). split; [by apply serialize_array|].
    simpl. by rewrite Hback.
  - simpl in Hdata. apply andb_true_iff in Hdata as [Hdata Hwf].
    apply bool_decide_eq_true_1 in Hwf.
    assert (∃ ms, Forall2 (λ kx kj, kx.1 = kj.1 ∧ serialize kx.2 = Return (Some kj.2))
                    props ms
                  ∧ (λ kv, (kv.1, JSON_parse kv.2)) <$> ms = props)
      as (ms & Hms & Hback).
    { clear Hwf. induction IH as [|[k x] r Hx _ IHr]; [by exists []|].
      simpl in Hdata, Hx. apply andb_true_iff in Hdata as [Hdx Hdr].
      destruct (Hx Hdx) as (j & Hj & Hpj), (IHr Hdr) as (ms & Hms & Hpms).
      exists ((k, j) :: ms). split; [by constructor|].
      rewrite fmap_cons, Hpms. simpl. by rewrite Hpj. }
    exists (JObject ms). split; [by apply serialize_object|].
    simpl. rewrite Hback. by rewrite objectOfMembers_wf.
  - destruct v as [| |b|[z| | |]|z|s|d|f|items|props|n]; try done;
      try (eexists; split; reflexivity).
    + by destruct (Harr items).
    + by destruct (Hobj props).
Qed.

(* ===================================================================== *)
(** * Properties: state manager *)
(* ===================================================================== *)

Lemma state_eta (s : stateManager.state) :
  stateManager.State (stateManager.localStorage s) (stateManager.callbacks s)
    (stateManager.invoked s) (stateManager.console s) = s.
Proof. by destruct s. Qed.

(** The invocations [_triggerCallbacks(key, value)] makes in state [s]. *)
Lemma forEachM_call (key : string) (v : value) (registered : list nat)
    (s : stateManager.state) :
  stateManager.forEachM (stateManager.call key v) registered s
  = (Return (),
     stateManager.State (stateManager.localStorage s) (stateManager.callbacks s)
       (stateManager.invoked s ++ ((λ cb, (key, cb, v)) <$> registered))
       (stateManager.console s)).
Proof.
  revert s. induction registered as [|cb r IH]; intros s; simpl.
  - rewrite app_nil_r. by rewrite state_eta.
  - unfold mbind, stateManager.M_bind. simpl. rewrite IH. simpl.
    by rewrite <- app_assoc.
Qed.

Lemma triggerCallbacks_spec (key : string) (v : value) (s : stateManager.state) :
  stateManager._triggerCallbacks key v s
  = (Return (),
     stateManager.State (stateManager.localStorage s) (stateManager.callbacks s)
       (stateManager.invoked s
        ++ ((λ cb, (key, cb, v))
              <$> default [] (Obj.get key (stateManager.callbacks s))))
       (stateManager.console s)).
Proof.
  unfold stateManager._triggerCallbacks.
  destruct (Obj.get key (stateManager.callbacks s)) as [registered|]; simpl.
  - apply forEachM_call.
  - rewrite app_nil_r. by rewrite state_eta.
Qed.

(** [set] when a text is produced: the text is stored under the key and the
    callbacks of the key are called with the value. *)
Lemma set_returns (key : string) (v : value) (text : json) (s : stateManager.state) :
  stateManager.serialized v = Return text →
  stateManager.set key v s
  = (Return (),
     stateManager.State (<[key := text]> (stateManager.localStorage s))
       (stateManager.callbacks s)
       (stateManager.invoked s
        ++ ((λ cb, (key, cb, v))
              <$> default [] (Obj.get key (stateManager.callbacks s))))
       (stateManager.console s)).
Proof.
  intros Htext.
  unfold stateManager.set, stateManager.try_catch, mbind, stateManager.M_bind,
    stateManager.lift.
  rewrite Htext. simpl. by rewrite triggerCallbacks_spec.
Qed.

(** [set] when producing the text throws: only the console changes. *)
Lemma set_throws (key : string) (v : value) (e : error) (s : stateManager.state) :
  stateManager.serialized v = Throw e →
  stateManager.set key v s
  = (Return (),
     stateManager.State (stateManager.localStorage s) (stateManager.callbacks s)
       (stateManager.invoked s)
       (stateManager.console s ++ [("Error setting value in localStorage:", e)])).
Proof.
  intros Htext.
  unfold stateManager.set, stateManager.try_catch, mbind, stateManager.M_bind,
    stateManager.lift.
  by rewrite Htext.
Qed.

Lemma stringifyEnvelope_spec (type : string) (v : value) (j : json) :
  serialize v = Return (Some j) →
  stateManager.stringifyEnvelope type v = Return (envelopeText type j).
Proof.
  intros Hv. unfold stateManager.stringifyEnvelope, JSON_stringify,
    stateManager.envelope.
  erewrite serialize_object; [done|].
  repeat constructor; done.
Qed.

Section state_manager.
Context `{Host}.

(** [get] reads the item of the key and restores it; an exception while
    restoring is logged and gives [null]. *)
Lemma get_spec (key : string) (s : stateManager.state) :
  stateManager.get key s
  = match stateManager.restored (stateManager.localStorage s !! key) with
    | Return v => (Return v, s)
    | Throw e =>
        (Return VNull,
         stateManager.State (stateManager.localStorage s) (stateManager.callbacks s)
           (stateManager.invoked s)
           (stateManager.console s
            ++ [("Error getting value from localStorage:", e)]))
    end.
Proof.
  unfold stateManager.get, stateManager.try_catch, mbind, stateManager.M_bind,
    stateManager.lift, stateManager.getItem.
  by destruct (stateManager.restored _).
Qed.

(** What is restored from the text of an envelope. *)
Lemma restored_envelope (type : string) (j : json) :
  stateManager.restored (Some (envelopeText type j))
  = if bool_decide (type = "string") then Return (JSON_parse j)
    else if bool_decide (type = "number") then
      n ← Number_ (JSON_parse j); Return (VNumber n)
    else if bool_decide (type = "object") then Return (JSON_parse j)
    else Return VNull.
Proof.
  unfold stateManager.restored, envelopeText.
  assert (JSON_parse (JObject [("type", JString type); ("value", j)])
          = VObject [("type", VString type); ("value", JSON_parse j)]) as ->.
  { simpl. rewrite objectOfMembers_wf; [done|].
    unfold Obj.wf. simpl. apply NoDup_cons. split; [|apply NoDup_singleton].
    by intros ?%list_elem_of_singleton. }
  done.
Qed.

(** A storable value has a text, and the text is restored to the value. *)
Lemma serialized_restored (v : value) :
  storable v = true →
  ∃ text, stateManager.serialized v = Return text
          ∧ stateManager.restored (Some text) = Return v.
Proof.
  unfold storable. intros [Hkind Hdata]%andb_true_iff.
  destruct (serialize_parse v Hdata) as (j & Hj & Hback).
  destruct v as [| |b|[z| | |]|z|s|d|f|items|props|n]; try done.
  - by exists JNull.
  - exists (envelopeText "number" j). split.
    + by apply stringifyEnvelope_spec.
    + rewrite restored_envelope. simpl. by rewrite Hback.
  - exists (envelopeText "string" j). split.
    + by apply stringifyEnvelope_spec.
    + rewrite restored_envelope. simpl. by rewrite Hback.
  - exists (envelopeText "object" j). split.
    + unfold stateManager.serialized. simpl. by apply stringifyEnvelope_spec.
    + rewrite restored_envelope. simpl. by rewrite Hback.
Qed.

(** C1, as the code has it.  For every key and every value that is a string,
    a finite number, [null], or a plain object of JSON data, [set] returns
    and [get] right after it returns that very value, of the same kind, and
    changes nothing. *)
Theorem set_get_roundtrip (key : string) (v : value) (s : stateManager.state) :
  storable v = true →
  ∃ s1, stateManager.set key v s = (Return (), s1)
        ∧ stateManager.get key s1 = (Return v, s1).
Proof.
  intros Hv. destruct (serialized_restored v Hv) as (text & Htext & Hback).
  eexists. split; [by apply set_returns|].
  rewrite get_spec. simpl. rewrite lookup_insert_eq. by rewrite Hback.
Qed.

(** What [get] returns depends on the stored items only. *)
Lemma get_value (key : string) (s s' : stateManager.state) :
  stateManager.localStorage s' = stateManager.localStorage s →
  (stateManager.get key s').1 = (stateManager.get key s).1.
Proof.
  intros Hsame. rewrite !get_spec, Hsame.
  by destruct (stateManager.restored _).
Qed.

(** C2.  For a value that is neither [null] nor of type string, number or
    object, [set] returns without raising; the stored items, the registry and
    the record of callback calls are as before, so no callback ran and [get]
    answers as before; the unsupported-type error is on the console. *)
Theorem set_unsupported (key : string) (v : value) (s : stateManager.state) :
  v ≠ VNull → typeof v ≠ "string" → typeof v ≠ "number" → typeof v ≠ "object" →
  stateManager.set key v s
  = (Return (),
     stateManager.State (stateManager.localStorage s) (stateManager.callbacks s)
       (stateManager.invoked s)
       (stateManager.console s
        ++ [("Error setting value in localStorage:", UnsupportedTypeError)]))
  ∧ (∀ k, (stateManager.get k (stateManager.set key v s).2).1
          = (stateManager.get k s).1).
Proof.
  intros Hnull Hstr Hnum Hobj.
  assert (stateManager.serialized v = Throw UnsupportedTypeError) as Hthrow.
  { unfold stateManager.serialized.
    rewrite !bool_decide_eq_false_2 by done. by destruct v. }
  split; [by apply set_throws|].
  intros k. apply get_value. by rewrite (set_throws _ _ _ _ Hthrow).
Qed.

End state_manager.

Lemma forEachM_trigger (keys : list string) (v : value) (s : stateManager.state) :
  stateManager.forEachM (λ key, stateManager._triggerCallbacks key v) keys s
  = (Return (),
     stateManager.State (stateManager.localStorage s) (stateManager.callbacks s)
       (stateManager.invoked s
        ++ flat_map (λ key, (λ cb, (key, cb, v))
                              <$> default [] (Obj.get key (stateManager.callbacks s)))
             keys)
       (stateManager.console s)).
Proof.
  revert s. induction keys as [|key r IH]; intros s; simpl.
  - rewrite app_nil_r. by rewrite state_eta.
  - unfold mbind, stateManager.M_bind. rewrite triggerCallbacks_spec, IH. simpl.
    by rewrite <- app_assoc.
Qed.

(** [clear] empties the store and calls, key by key in the order of the
    registry, the callbacks registered under the key with [null]. *)
Lemma clear_spec (s : stateManager.state) :
  stateManager.clear s
  = (Return (),
     stateManager.State ∅ (stateManager.callbacks s)
       (stateManager.invoked s
        ++ flat_map (λ key, (λ cb, (key, cb, VNull))
                              <$> default [] (Obj.get key (stateManager.callbacks s)))
             (Obj.keys (stateManager.callbacks s)))
       (stateManager.console s)).
Proof.
  unfold stateManager.clear, stateManager.try_catch, mbind, stateManager.M_bind,
    stateManager.clearStorage, stateManager.callbackKeys.
  simpl. by rewrite forEachM_trigger.
Qed.

(** In a registry that names each key once, every registered callback is
    called exactly once, in registration order. *)
Lemma clear_fires_once (s : stateManager.state) :
  Obj.wf (stateManager.callbacks s) →
  stateManager.invoked (stateManager.clear s).2
  = stateManager.invoked s
    ++ flat_map (λ entry, (λ cb, (entry.1, cb, VNull)) <$> entry.2)
         (stateManager.callbacks s).
Proof.
  intros Hwf. rewrite clear_spec. simpl. f_equal.
  enough (∀ l, (∀ entry, entry ∈ l →
                  Obj.get entry.1 (stateManager.callbacks s) = Some entry.2) →
            flat_map (λ key, (λ cb, (key, cb, VNull))
                        <$> default [] (Obj.get key (stateManager.callbacks s)))
              (Obj.keys l)
            = flat_map (λ entry, (λ cb, (entry.1, cb, VNull)) <$> entry.2) l)
    as Hgen.
  { apply Hgen. intros [k l] Hin. by apply Obj_get_wf_elem. }
  induction l as [|[k registered] r IH]; intros Hl; simpl; [done|].
  pose proof (Hl (k, registered) (list_elem_of_here _ _)) as Hk. simpl in Hk.
  rewrite Hk. simpl. f_equal. apply IH.
  intros entry Hin. apply Hl. by apply list_elem_of_further.
Qed.

(** C8.  [clear] empties the whole store, and then calls with [null] the
    callbacks of exactly the keys that have registered callbacks: a call is
    made if and only if its callback is registered under its key, and its
    argument is [null].  A key without callbacks is removed from the store
    like every other, and nothing is called for it. *)
Theorem clear_notifies (s : stateManager.state) :
  ∃ fired,
    stateManager.clear s
    = (Return (),
       stateManager.State ∅ (stateManager.callbacks s)
         (stateManager.invoked s ++ fired) (stateManager.console s))
    ∧ (∀ key cb v,
         (key, cb, v) ∈ fired
         ↔ v = VNull
           ∧ ∃ registered,
               Obj.get key (stateManager.callbacks s) = Some registered
               ∧ cb ∈ registered)
    ∧ (∀ key, stateManager.localStorage (stateManager.clear s).2 !! key = None).
Proof.
  eexists. split_and!; [apply clear_spec | | ].
  - intros key cb v. rewrite list_elem_of_In, in_flat_map. split.
    + intros (k & Hk & Hin). apply list_elem_of_In, list_elem_of_fmap in Hin
        as (cb' & [= -> -> ->] & Hcb).
      split; [done|].
      destruct (Obj.get k (stateManager.callbacks s)) as [registered|];
        [by exists registered | by apply elem_of_nil in Hcb].
    + intros (-> & registered & Hget & Hcb). exists key. split.
      * apply list_elem_of_In, Obj_get_is_Some. by rewrite Hget.
      * apply list_elem_of_In. rewrite Hget. simpl.
        apply list_elem_of_fmap. by exists cb.
  - intros key. rewrite clear_spec. simpl. apply lookup_empty.
Qed.

(** ** The state manager on concrete calls *)

(** The number 5 and the string "5" come back as they went in. *)
Example set_get_five :
  (@stateManager.get sampleHost "n"
     (stateManager.set "n" (VNumber (Finite 5)) stateManager.initial).2).1
  = Return (VNumber (Finite 5))
  ∧ (@stateManager.get sampleHost "n"
       (stateManager.set "n" (VString "5") stateManager.initial).2).1
    = Return (VString "5")
  ∧ VNumber (Finite 5) ≠ VString "5".
Proof. split_and!; [by vm_compute | by vm_compute | discriminate]. Qed.

(** A property holding [undefined] or a function is not written; a
    non-finite number inside an array is written as [null]. *)
Example set_get_lossy_object :
  (@stateManager.get sampleHost "o"
     (stateManager.set "o"
        (VObject [("a", VUndefined); ("f", VFunction 1);
                  ("l", VArray [VNumber Infinity; VNumber (Finite 1)])])
        stateManager.initial).2).1
  = Return (VObject [("l", VArray [VNull; VNumber (Finite 1)])]).
Proof. by vm_compute. Qed.

(** An object holding a BigInt cannot be written: [set] logs and stores
    nothing. *)
Example set_bigint_inside :
  stateManager.set "o" (VObject [("a", VBigInt 1)]) stateManager.initial
  = (Return (),
     stateManager.State ∅ [] []
       [("Error setting value in localStorage:",
         TypeError "Do not know how to serialize a BigInt")]).
Proof. reflexivity. Qed.

(** Callbacks of a key run on [set], [remove] and [clear], in registration
    order; keys without callbacks are cleared silently. *)
Example callbacks_trace :
  let run (m : stateManager.M unit) s := (m s).2 in
  let s := run (stateManager.onChange "a" 1) stateManager.initial in
  let s := run (stateManager.onChange "b" 2) s in
  let s := run (stateManager.onChange "a" 3) s in
  let s := run (stateManager.set "a" (VString "x")) s in
  let s := run (stateManager.set "c" (VString "y")) s in
  let s := run (stateManager.remove "b") s in
  let s := run stateManager.clear s in
  stateManager.invoked s
  = [("a", 1, VString "x"); ("a", 3, VString "x"); ("b", 2, VNull);
     ("a", 1, VNull); ("a", 3, VNull); ("b", 2, VNull)]
  ∧ stateManager.localStorage s = ∅.
Proof. split; by vm_compute. Qed.

Lemma set_get_roundtrip_witness :
  ∃ s1,
    stateManager.set "user"
      (VObject [("name", VString "Alice"); ("age", VNumber (Finite 25))])
      stateManager.initial = (Return (), s1)
    ∧ @stateManager.get sampleHost "user" s1
      = (Return (VObject [("name", VString "Alice"); ("age", VNumber (Finite 25))]),
         s1).
Proof.
  apply (@set_get_roundtrip sampleHost "user"
           (VObject [("name", VString "Alice"); ("age", VNumber (Finite 25))])
           stateManager.initial).
  vm_compute. reflexivity.
Defined.

Lemma set_unsupported_witness :
  stateManager.set "k" (VFunction 1) stateManager.initial
  = (Return (),
     stateManager.State ∅ [] []
       [("Error setting value in localStorage:", UnsupportedTypeError)]).
Proof.
  apply (@set_unsupported sampleHost "k" (VFunction 1) stateManager.initial);
    discriminate.
Defined.

Lemma clear_notifies_witness :
  ∃ fired,
    stateManager.clear
      (stateManager.State {[ "a" := JNull; "c" := JNull ]}
         [("a", [1; 3]); ("b", [2])] [] [])
    = (Return (),
       stateManager.State ∅ [("a", [1; 3]); ("b", [2])] ([] ++ fired) [])
    ∧ ("a", 3, VNull) ∈ fired.
Proof.
  destruct (clear_notifies
              (stateManager.State {[ "a" := JNull; "c" := JNull ]}
                 [("a", [1; 3]); ("b", [2])] [] []))
    as (fired & Hclear & Hfired & _).
  exists fired. split; [exact Hclear|].
  apply Hfired. split; [reflexivity|].
  exists [1; 3]. split; [reflexivity|].
  apply list_elem_of_further, list_elem_of_here.
Defined.

(** C1 as stated fails: [NaN] is a number, [set] writes it as [null] inside
    the envelope, and [get] right after it returns 0, under every host, for
    every key and in every state. *)
Lemma set_get_NaN :
  supported (VNumber NaN) = true
  ∧ VNumber (Finite 0) ≠ VNumber NaN
  ∧ ∀ (H : Host) (key : string) (s : stateManager.state),
      (stateManager.get key (stateManager.set key (VNumber NaN) s).2).1
      = Return (VNumber (Finite 0)).
Proof.
  split_and!; [done | discriminate |].
  intros H key s.
  rewrite (set_returns key (VNumber NaN) (envelopeText "number" JNull) s)
    by reflexivity.
  rewrite get_spec. simpl. by rewrite lookup_insert_eq.
Qed.

(* ===================================================================== *)
(** * Properties: hash router *)
(* ===================================================================== *)

Lemma currentPath_fragment (p : router.page) (fragment : string) :
  router.location_hash p = "#" +:+ fragment →
  router.currentPath p = if bool_decide (fragment = "") then "/" else fragment.
Proof. unfold router.currentPath. by intros ->. Qed.

Lemma render_selected (routes : gmap string router.component) (p : router.page)
    (c : router.component) :
  router.lookupRoute routes (router.currentPath p) = router.Route c →
  router.render routes p
  = (Return (),
     router.Page (router.location_hash p)
       (Element (elementName (router.app p)) (attributes (router.app p))
          (properties (router.app p)) (listeners (router.app p))
          [HTMLElement (c ())])).
Proof.
  intros Hc. unfold router.render. rewrite Hc. simpl.
  by destruct (router.app p).
Qed.

(** Calling a member of [Object.prototype] as a route ends in a
    [TypeError]: its own, or that of appending what it returned. *)
Lemma callInherited_error (name : string) :
  ∃ what,
    match router.callInherited name with
    | Return v => router.appendNoNode v
    | Throw e => e
    end = TypeError what.
Proof.
  unfold router.callInherited, router.appendNoNode.
  repeat case_bool_decide; by eexists.
Qed.

(** Without a route of the table's own to call, [render] throws a
    [TypeError], the container already emptied. *)
Lemma render_unselected (routes : gmap string router.component) (p : router.page) :
  (∀ c, router.lookupRoute routes (router.currentPath p) ≠ router.Route c) →
  ∃ what,
    router.render routes p
    = (Throw (TypeError what),
       router.Page (router.location_hash p) (router.clearInnerHTML (router.app p))).
Proof.
  intros Hc. unfold router.render.
  destruct (router.lookupRoute routes (router.currentPath p)) as [c|name|].
  - by destruct (Hc c).
  - destruct (callInherited_error name) as [what Hwhat]. exists what.
    destruct (router.callInherited name) as [v|e]; by rewrite Hwhat.
  - by eexists.
Qed.

(** Which route the lookup selects. *)
Lemma lookupRoute_selects (routes : gmap string router.component) (path : string)
    (c : router.component) :
  router.lookupRoute routes path = router.Route c
  ↔ routes !! path = Some c
    ∨ (routes !! path = None ∧ (path ∉ prototypeKeys) ∧ routes !! "*" = Some c).
Proof.
  unfold router.lookupRoute. destruct (routes !! path) as [c'|].
  - split; [intros [= ->]; by left | intros [[= ->] | [[=] _]]; done].
  - case_bool_decide as Hin.
    + split; [done | intros [[=] | (_ & Hout & _)]; done].
    + destruct (routes !! "*") as [c'|].
      * split; [intros [= ->]; by right | intros [[=] | (_ & _ & [= ->])]; done].
      * split; [done | intros [[=] | (_ & _ & [=])]].
Qed.

(** C3.  [render] takes the hash without its leading [#], reads an empty
    fragment as the root path [/], selects the route the table has under
    exactly that path, empties the container and appends to it the element
    the selected route returns: that element is then the only child, the
    rest of the container is as it was.  When the table has no route under
    the path, the route under [*] is selected if the path names nothing in
    [Object.prototype].  For a path that does, such as [toString], the lookup
    finds the inherited member in place of the route under [*]: [render]
    empties the container and throws a [TypeError], and no route is
    rendered. *)
Theorem render_spec (routes : gmap string router.component) (p : router.page) :
  (router.location_hash p = "" ∨ router.location_hash p = "#" →
     router.currentPath p = "/")
  ∧ (∀ fragment, fragment ≠ "" → router.location_hash p = "#" +:+ fragment →
       router.currentPath p = fragment)
  ∧ (∀ c, routes !! router.currentPath p = Some c →
       router.lookupRoute routes (router.currentPath p) = router.Route c)
  ∧ (routes !! router.currentPath p = None →
     router.currentPath p ∉ prototypeKeys →
     router.lookupRoute routes (router.currentPath p)
     = match routes !! "*" with
       | Some c => router.Route c
       | None => router.NoRoute
       end)
  ∧ (∀ c, router.lookupRoute routes (router.currentPath p) = router.Route c →
       router.render routes p
       = (Return (),
          router.Page (router.location_hash p)
            (Element (elementName (router.app p)) (attributes (router.app p))
               (properties (router.app p)) (listeners (router.app p))
               [HTMLElement (c ())])))
  ∧ (routes !! router.currentPath p = None →
     router.currentPath p ∈ prototypeKeys →
     router.lookupRoute routes (router.currentPath p)
     = router.Inherited (router.currentPath p)
     ∧ ∃ what,
         router.render routes p
         = (Throw (TypeError what),
            router.Page (router.location_hash p)
              (router.clearInnerHTML (router.app p)))).
Proof.
  split_and!.
  - unfold router.currentPath. by intros [-> | ->].
  - intros fragment Hne Hhash. rewrite (currentPath_fragment _ _ Hhash).
    by rewrite bool_decide_eq_false_2.
  - intros c Hc. unfold router.lookupRoute. by rewrite Hc.
  - intros Hc Hout. unfold router.lookupRoute.
    by rewrite Hc, bool_decide_eq_false_2.
  - apply render_selected.
  - intros Hc Hin.
    assert (router.lookupRoute routes (router.currentPath p)
            = router.Inherited (router.currentPath p)) as Hfound.
    { unfold router.lookupRoute. by rewrite Hc, bool_decide_eq_true_2. }
    split; [done|]. apply render_unselected. intros c. by rewrite Hfound.
Qed.

(** C10.  [render] returns if and only if the table has a route under the
    current path, or has one under [*] and the path names nothing in
    [Object.prototype].  When it does not return it throws a [TypeError], the
    container already emptied.  With neither route in the table and a path
    that names nothing in [Object.prototype], the lookup gives no function
    and [render] throws on calling it.  With a path such as [toString] that
    the table has no route for, [render] throws also when the table has a
    route under [*]. *)
Theorem render_total_iff (routes : gmap string router.component) (p : router.page) :
  ((router.render routes p).1 = Return ()
   ↔ is_Some (routes !! router.currentPath p)
     ∨ ((router.currentPath p ∉ prototypeKeys) ∧ is_Some (routes !! "*")))
  ∧ ((router.render routes p).1 ≠ Return () →
     ∃ what,
       router.render routes p
       = (Throw (TypeError what),
          router.Page (router.location_hash p)
            (router.clearInnerHTML (router.app p))))
  ∧ (routes !! router.currentPath p = None → routes !! "*" = None →
     router.currentPath p ∉ prototypeKeys →
     router.lookupRoute routes (router.currentPath p) = router.NoRoute
     ∧ router.render routes p
       = (Throw (TypeError "component is not a function"),
          router.Page (router.location_hash p)
            (router.clearInnerHTML (router.app p))))
  ∧ (routes !! router.currentPath p = None →
     router.currentPath p ∈ prototypeKeys →
     ∃ what,
       router.render routes p
       = (Throw (TypeError what),
          router.Page (router.location_hash p)
            (router.clearInnerHTML (router.app p)))).
Proof.
  assert ((∃ c, router.lookupRoute routes (router.currentPath p) = router.Route c)
          ↔ is_Some (routes !! router.currentPath p)
            ∨ ((router.currentPath p ∉ prototypeKeys) ∧ is_Some (routes !! "*")))
    as Hselected.
  { split.
    - intros [c [Hc | (_ & Hout & Hc)]%lookupRoute_selects]; [left | right]; eauto.
    - intros [[c Hc] | [Hout [c Hc]]].
      + exists c. apply lookupRoute_selects. by left.
      + destruct (routes !! router.currentPath p) as [c'|] eqn:Hpath.
        * exists c'. apply lookupRoute_selects. by left.
        * exists c. apply lookupRoute_selects. by right. }
  assert ((∀ c, router.lookupRoute routes (router.currentPath p) ≠ router.Route c)
          ∨ ∃ c, router.lookupRoute routes (router.currentPath p) = router.Route c)
    as Hcases.
  { destruct (router.lookupRoute routes (router.currentPath p)); eauto. }
  split_and!.
  - rewrite <- Hselected. destruct Hcases as [Hnone | [c Hc]].
    + destruct (render_unselected _ _ Hnone) as [what ->]. simpl.
      split; [done | intros [c Hc]; by destruct (Hnone c)].
    + rewrite (render_selected _ _ _ Hc). simpl. split; [by eauto | done].
  - intros Hthrows. destruct Hcases as [Hnone | [c Hc]].
    + by apply render_unselected.
    + by rewrite (render_selected _ _ _ Hc) in Hthrows.
  - intros Hpath Hstar Hout.
    assert (router.lookupRoute routes (router.currentPath p) = router.NoRoute)
      as Hfound.
    { unfold router.lookupRoute.
      by rewrite Hpath, Hstar, bool_decide_eq_false_2. }
    split; [done|]. unfold router.render. by rewrite Hfound.
  - intros Hpath Hin. apply render_unselected. intros c Hc.
    apply lookupRoute_selects in Hc as [Hc | (_ & Hout & _)]; [congruence | done].
Qed.

(** ** The router on concrete calls *)

(** With routes [{ "/": f, "*": g }]: the empty hash renders [f]; the hash
    [#/missing] renders [g]; rendering again replaces the content by the
    same route's element. *)
Example render_root_and_wildcard :
  let f : router.component := λ _, Element "main" [] [] [] [] in
  let g : router.component := λ _, Element "h1" [] [] [] [TextNode "404"] in
  let routes : gmap string router.component := {[ "/" := f; "*" := g ]} in
  let container := Element "div" [("id", "app")] [] [] [TextNode "loading"] in
  router.render routes (router.Page "" container)
  = (Return (),
     router.Page "" (Element "div" [("id", "app")] [] [] [HTMLElement (f ())]))
  ∧ router.render routes (router.Page "#/missing" container)
    = (Return (),
       router.Page "#/missing"
         (Element "div" [("id", "app")] [] [] [HTMLElement (g ())]))
  ∧ router.render routes (router.render routes (router.Page "#/" container)).2
    = router.render routes (router.Page "#/" container).
Proof. split_and!; by vm_compute. Qed.

(** [hashRouter] without a container throws; with one it registers the
    handler and renders at once. *)
Example hashRouter_init :
  let f : router.component := λ _, Element "main" [] [] [] [] in
  let routes : gmap string router.component := {[ "/" := f ]} in
  let container := Element "div" [] [] [] [] in
  router.hashRouter routes None (router.Window "" ∅ [])
  = (Throw (NotFoundError "app"), router.Window "" ∅ [])
  ∧ (router.hashRouter routes None
       (router.Window "" {[ "app" := container ]} [])).1 = Return ()
  ∧ router.document
      (router.hashRouter routes None
         (router.Window "" {[ "app" := container ]} [])).2 !! "app"
    = Some (Element "div" [] [] [] [HTMLElement (f ())]).
Proof. split_and!; by vm_compute. Qed.

(** With neither route in the table, calling what the lookup gives throws. *)
Example render_without_route :
  router.render (∅ : gmap string router.component)
    (router.Page "#/x" (Element "div" [] [] [] [TextNode "old"]))
  = (Throw (TypeError "component is not a function"),
     router.Page "#/x" (Element "div" [] [] [] [])).
Proof. by vm_compute. Qed.

(** At the hash [#toString] the lookup finds [Object.prototype.toString],
    whatever the table has under [*]: the container is emptied, the member is
    called and returns a string, and appending the string throws. *)
Example render_inherited_members :
  let f : router.component := λ _, Element "main" [] [] [] [] in
  let g : router.component := λ _, Element "h1" [] [] [] [TextNode "404"] in
  let routes : gmap string router.component := {[ "/" := f; "*" := g ]} in
  let container := Element "div" [] [] [] [TextNode "old"] in
  router.lookupRoute routes "toString" = router.Inherited "toString"
  ∧ router.render routes (router.Page "#toString" container)
    = (Throw (TypeError "parameter 1 is not of type 'Node'"),
       router.Page "#toString" (Element "div" [] [] [] []))
  ∧ router.render routes (router.Page "#__proto__" container)
    = (Throw (TypeError "component is not a function"),
       router.Page "#__proto__" (Element "div" [] [] [] []))
  ∧ router.render routes (router.Page "#valueOf" container)
    = (Throw (TypeError "Cannot convert undefined or null to object"),
       router.Page "#valueOf" (Element "div" [] [] [] [])).
Proof. split_and!; by vm_compute. Qed.

Lemma render_spec_witness :
  let f : router.component := λ _, Element "main" [] [] [] [] in
  let g : router.component := λ _, Element "h1" [] [] [] [TextNode "404"] in
  ∃ what,
    router.render {[ "/" := f; "*" := g ]}
      (router.Page "#toString" (Element "div" [] [] [] [TextNode "old"]))
    = (Throw (TypeError what),
       router.Page "#toString" (Element "div" [] [] [] [])).
Proof.
  intros f g.
  destruct (render_spec {[ "/" := f; "*" := g ]}
              (router.Page "#toString" (Element "div" [] [] [] [TextNode "old"])))
    as (_ & _ & _ & _ & _ & Hinherited).
  destruct Hinherited as [_ Hthrows].
  - by vm_compute.
  - apply (bool_decide_unpack _). by vm_compute.
  - exact Hthrows.
Defined.

Lemma render_total_iff_witness :
  let g : router.component := λ _, Element "h1" [] [] [] [TextNode "404"] in
  ∃ what,
    router.render {[ "*" := g ]}
      (router.Page "#toString" (Element "div" [] [] [] [TextNode "old"]))
    = (Throw (TypeError what),
       router.Page "#toString" (Element "div" [] [] [] [])).
Proof.
  intros g.
  destruct (render_total_iff {[ "*" := g ]}
              (router.Page "#toString" (Element "div" [] [] [] [TextNode "old"])))
    as (_ & _ & _ & Hinherited).
  apply Hinherited.
  - by vm_compute.
  - apply (bool_decide_unpack _). by vm_compute.
Defined.

(* ===================================================================== *)
(** * Further properties: ordered objects *)
(* ===================================================================== *)

Lemma Obj_get_set_eq {A : Type} (key : string) (a : A) (o : list (string * A)) :
  Obj.get key (Obj.set key a o) = Some a.
Proof.
  induction o as [|[k b] r IH]; simpl.
  - by rewrite bool_decide_eq_true_2.
  - destruct (decide (k = key)) as [->|Hk].
    + rewrite bool_decide_eq_true_2 by done. simpl.
      by rewrite bool_decide_eq_true_2.
    + rewrite bool_decide_eq_false_2 by done. simpl.
      by rewrite bool_decide_eq_false_2.
Qed.

Lemma Obj_get_set_ne {A : Type} (key k' : string) (a : A) (o : list (string * A)) :
  k' ≠ key → Obj.get k' (Obj.set key a o) = Obj.get k' o.
Proof.
  intros Hne. induction o as [|[k b] r IH]; simpl.
  - by rewrite bool_decide_eq_false_2.
  - destruct (decide (k = key)) as [->|Hk].
    + rewrite bool_decide_eq_true_2 by done. simpl.
      by rewrite !bool_decide_eq_false_2.
    + rewrite bool_decide_eq_false_2 by done. simpl.
      destruct (decide (k = k')) as [->|Hk'].
      * by rewrite !bool_decide_eq_true_2.
      * by rewrite !bool_decide_eq_false_2.
Qed.

Lemma Obj_set_set {A : Type} (key : string) (a b : A) (o : list (string * A)) :
  Obj.set key b (Obj.set key a o) = Obj.set key b o.
Proof.
  induction o as [|[k c] r IH]; simpl.
  - by rewrite bool_decide_eq_true_2.
  - destruct (decide (k = key)) as [->|Hk].
    + rewrite bool_decide_eq_true_2 by done. simpl.
      by rewrite bool_decide_eq_true_2.
    + rewrite bool_decide_eq_false_2 by done. simpl.
      rewrite bool_decide_eq_false_2 by done. by rewrite IH.
Qed.

(** Writing a property keeps the names and their order; a new name goes
    last. *)
Lemma Obj_keys_set {A : Type} (key : string) (a : A) (o : list (string * A)) :
  Obj.keys (Obj.set key a o)
  = if bool_decide (key ∈ Obj.keys o) then Obj.keys o else Obj.keys o ++ [key].
Proof.
  unfold Obj.keys. induction o as [|[k b] r IH].
  - done.
  - cbn [Obj.set]. destruct (decide (k = key)) as [->|Hk].
    + rewrite bool_decide_eq_true_2 by done.
      rewrite bool_decide_eq_true_2; [done | apply list_elem_of_here].
    + rewrite bool_decide_eq_false_2 by done. rewrite !fmap_cons, IH.
      destruct (decide (key ∈ r.*1)) as [Hin|Hin].
      * rewrite (bool_decide_eq_true_2 _ Hin).
        rewrite bool_decide_eq_true_2; [done | by apply list_elem_of_further].
      * rewrite (bool_decide_eq_false_2 _ Hin).
        rewrite bool_decide_eq_false_2; [done|].
        simpl. rewrite not_elem_of_cons. split; [congruence | done].
Qed.

Lemma Obj_wf_set {A : Type} (key : string) (a : A) (o : list (string * A)) :
  Obj.wf o → Obj.wf (Obj.set key a o).
Proof.
  unfold Obj.wf. intros Hwf. rewrite Obj_keys_set. case_bool_decide as Hin; [done|].
  apply NoDup_app. split_and!; [done | | apply NoDup_singleton].
  intros k Hk ->%list_elem_of_singleton. done.
Qed.

Lemma Obj_get_elem_of {A : Type} (key : string) (a : A) (o : list (string * A)) :
  Obj.get key o = Some a → (key, a) ∈ o.
Proof.
  induction o as [|[k b] r IH]; simpl; [done|].
  case_bool_decide as Hk.
  - intros [= ->]. subst k. apply list_elem_of_here.
  - intros Hget. apply list_elem_of_further. by apply IH.
Qed.

(* ===================================================================== *)
(** * Further properties: state manager *)
(* ===================================================================== *)

Section state_manager_more.
Context `{Host}.

(** What [get] returns depends on the item of the key only. *)
Lemma get_value_item (key : string) (s s' : stateManager.state) :
  stateManager.localStorage s' !! key = stateManager.localStorage s !! key →
  (stateManager.get key s').1 = (stateManager.get key s).1.
Proof.
  intros Hsame. rewrite !get_spec, Hsame.
  by destruct (stateManager.restored _).
Qed.

Lemma remove_spec (key : string) (s : stateManager.state) :
  stateManager.remove key s
  = (Return (),
     stateManager.State (delete key (stateManager.localStorage s))
       (stateManager.callbacks s)
       (stateManager.invoked s
        ++ ((λ cb, (key, cb, VNull))
              <$> default [] (Obj.get key (stateManager.callbacks s))))
       (stateManager.console s)).
Proof.
  unfold stateManager.remove, stateManager.try_catch, mbind, stateManager.M_bind,
    stateManager.removeItem.
  simpl. by rewrite triggerCallbacks_spec.
Qed.

(** X1.  [get] of a key right after [remove] returns [null] and changes
    nothing, and every other key reads as before.  For a key that names
    nothing in [Object.prototype], [remove] deletes the item of the key and
    nothing else, logs nothing, and calls the callbacks of the key once each,
    in registration order, with [null]. *)
Theorem remove_then_get (key : string) (s : stateManager.state) :
  (key ∉ prototypeKeys →
     stateManager.remove key s
     = (Return (),
        stateManager.State (delete key (stateManager.localStorage s))
          (stateManager.callbacks s)
          (stateManager.invoked s
           ++ ((λ cb, (key, cb, VNull))
                 <$> default [] (Obj.get key (stateManager.callbacks s))))
          (stateManager.console s)))
  ∧ stateManager.get key (stateManager.remove key s).2
    = (Return VNull, (stateManager.remove key s).2)
  ∧ (∀ k', k' ≠ key →
       (stateManager.get k' (stateManager.remove key s).2).1
       = (stateManager.get k' s).1).
Proof.
  split_and!.
  - intros _. apply remove_spec.
  - rewrite remove_spec, get_spec. simpl. by rewrite lookup_delete_eq.
  - intros k' Hne. apply get_value_item. rewrite remove_spec. simpl.
    by rewrite lookup_delete_ne.
Qed.

(** [get] returns, and what it returns comes from the item alone. *)
Lemma get_returns (key : string) (s : stateManager.state) :
  ∃ v s', stateManager.get key s = (Return v, s')
          ∧ stateManager.localStorage s' = stateManager.localStorage s
          ∧ stateManager.callbacks s' = stateManager.callbacks s
          ∧ stateManager.invoked s' = stateManager.invoked s.
Proof.
  rewrite get_spec.
  destruct (stateManager.restored _) as [v|e]; eexists _, _; split_and!; done.
Qed.

(** X2.  [get] never raises and never writes: it returns a value and leaves
    the stored items, the registry and the record of callback calls as they
    are.  For a key without item, and for the item [null], it returns [null]
    and leaves the whole state as it is. *)
Theorem get_reads_only (key : string) (s : stateManager.state) :
  (∃ v s', stateManager.get key s = (Return v, s')
           ∧ stateManager.localStorage s' = stateManager.localStorage s
           ∧ stateManager.callbacks s' = stateManager.callbacks s
           ∧ stateManager.invoked s' = stateManager.invoked s)
  ∧ (stateManager.localStorage s !! key = None →
       stateManager.get key s = (Return VNull, s))
  ∧ (stateManager.localStorage s !! key = Some JNull →
       stateManager.get key s = (Return VNull, s)).
Proof.
  split_and!; [apply get_returns | |]; intros Hitem; by rewrite get_spec, Hitem.
Qed.

(** [set] returns, whatever the value. *)
Lemma set_always_returns (key : string) (v : value) (s : stateManager.state) :
  (stateManager.set key v s).1 = Return ().
Proof.
  destruct (stateManager.serialized v) as [text|e] eqn:Htext.
  - by rewrite (set_returns _ _ _ _ Htext).
  - by rewrite (set_throws _ _ _ _ Htext).
Qed.

Lemma update_unfold (key : string) (updater : value → value)
    (s s1 : stateManager.state) (current : value) :
  stateManager.get key s = (Return current, s1) →
  stateManager.update key updater s
  = (Return (updater current), (stateManager.set key (updater current) s1).2).
Proof.
  intros Hget. unfold stateManager.update, mbind, stateManager.M_bind.
  rewrite Hget.
  pose proof (set_always_returns key (updater current) s1) as Hset.
  destruct (stateManager.set key (updater current) s1) as [[[]|e] s2];
    simpl in *; done.
Qed.

(** X3.  [update] reads the current value with [get], hands it to the
    updater, writes the result with [set] and returns that result.  For a key
    without item the updater receives [null].  The result is returned also
    when [set] could not store it: after an updater that returns [undefined]
    the stored items are as before.  When the result is storable, [get] then
    returns it. *)
Theorem update_spec (key : string) (updater : value → value)
    (s : stateManager.state) :
  ∃ current s1,
    stateManager.get key s = (Return current, s1)
    ∧ stateManager.update key updater s
      = (Return (updater current),
         (stateManager.set key (updater current) s1).2)
    ∧ (stateManager.localStorage s !! key = None → current = VNull)
    ∧ (updater current = VUndefined →
         stateManager.localStorage (stateManager.update key updater s).2
         = stateManager.localStorage s)
    ∧ (storable (updater current) = true →
         (stateManager.get key (stateManager.update key updater s).2).1
         = Return (updater current)).
Proof.
  destruct (get_returns key s) as (current & s1 & Hget & Hls & _ & _).
  exists current, s1. rewrite (update_unfold _ _ _ _ _ Hget). split_and!.
  - done.
  - done.
  - intros Hnone. rewrite get_spec, Hnone in Hget. simpl in Hget. congruence.
  - intros ->.
    by rewrite (set_throws key VUndefined UnsupportedTypeError s1).
  - intros Hstorable. simpl.
    destruct (serialized_restored _ Hstorable) as (text & Htext & Hback).
    rewrite (set_returns _ _ _ _ Htext), get_spec. simpl.
    by rewrite lookup_insert_eq, Hback.
Qed.

End state_manager_more.

(** [onChange] finds the list of the key, made empty first when the key is
    new, and puts the callback last. *)
Lemma onChange_spec (key : string) (callback : nat) (s : stateManager.state) :
  stateManager.onChange key callback s
  = (Return (),
     stateManager.State (stateManager.localStorage s)
       (Obj.set key
          (default [] (Obj.get key (stateManager.callbacks s)) ++ [callback])
          (stateManager.callbacks s))
       (stateManager.invoked s) (stateManager.console s)).
Proof.
  unfold stateManager.onChange.
  destruct (Obj.get key (stateManager.callbacks s)) as [registered|] eqn:Hget.
  - by rewrite Hget.
  - rewrite Obj_get_set_eq. simpl. by rewrite Obj_set_set.
Qed.

(** X4.  For a key that names nothing in [Object.prototype], [onChange]
    returns.  It puts the callback at the end of the callbacks of the key,
    also when it is registered there already, keeps the callbacks of every
    other key, keeps each key named once, and touches neither the stored
    items nor the record of calls: registering calls nothing. *)
Theorem onChange_registers (key : string) (callback : nat)
    (s : stateManager.state) :
  key ∉ prototypeKeys →
  ∃ s',
    stateManager.onChange key callback s = (Return (), s')
    ∧ Obj.get key (stateManager.callbacks s')
      = Some (default [] (Obj.get key (stateManager.callbacks s)) ++ [callback])
    ∧ (∀ k', k' ≠ key →
         Obj.get k' (stateManager.callbacks s')
         = Obj.get k' (stateManager.callbacks s))
    ∧ (Obj.wf (stateManager.callbacks s) → Obj.wf (stateManager.callbacks s'))
    ∧ stateManager.localStorage s' = stateManager.localStorage s
    ∧ stateManager.invoked s' = stateManager.invoked s
    ∧ stateManager.console s' = stateManager.console s.
Proof.
  intros _. eexists. split; [apply onChange_spec|]. simpl.
  split_and!; try done.
  - apply Obj_get_set_eq.
  - intros k' Hne. by apply Obj_get_set_ne.
  - apply Obj_wf_set.
Qed.

(** [null], a string and a number always have a text. *)
Lemma serialized_primitive (v : value) :
  v = VNull ∨ typeof v = "string" ∨ typeof v = "number" →
  ∃ text, stateManager.serialized v = Return text.
Proof.
  intros Hkind.
  destruct v as [| |b|n|z|str|d|f|items|props|nd];
    try (by destruct Hkind as [?|[?|?]]).
  - by eexists.
  - destruct n; by eexists.
  - by eexists.
Qed.

(** X5.  [null], a string and a number are always written: under a key
    that names nothing in [Object.prototype], [set] stores a text under the
    key, logs nothing, and calls the callbacks of the key once each, in
    registration order, with the value it was given, also when the value is
    a number that will not read back as itself.  The items of the other keys
    stay. *)
Theorem set_notifies (key : string) (v : value) (s : stateManager.state) :
  key ∉ prototypeKeys →
  v = VNull ∨ typeof v = "string" ∨ typeof v = "number" →
  ∃ text,
    stateManager.set key v s
    = (Return (),
       stateManager.State (<[key := text]> (stateManager.localStorage s))
         (stateManager.callbacks s)
         (stateManager.invoked s
          ++ ((λ cb, (key, cb, v))
                <$> default [] (Obj.get key (stateManager.callbacks s))))
         (stateManager.console s))
    ∧ (∀ k', k' ≠ key →
         stateManager.localStorage (stateManager.set key v s).2 !! k'
         = stateManager.localStorage s !! k').
Proof.
  intros _ Hkind. destruct (serialized_primitive v Hkind) as [text Htext].
  exists text. rewrite (set_returns _ _ _ _ Htext). split; [done|].
  intros k' Hne. simpl. by rewrite lookup_insert_ne.
Qed.

(** X6.  The methods of the state manager do not raise: [set], [get],
    [remove], [clear] and [update] return in every state, for every key,
    value and updater that returns, and [onChange] returns for every key
    that names nothing in [Object.prototype]. *)
Theorem stateManager_never_throws `{Host} (key : string) (v : value)
    (updater : value → value) (callback : nat)
    (s : stateManager.state) :
  (stateManager.set key v s).1 = Return ()
  ∧ (∃ r, (stateManager.get key s).1 = Return r)
  ∧ (stateManager.remove key s).1 = Return ()
  ∧ (stateManager.clear s).1 = Return ()
  ∧ (∃ r, (stateManager.update key updater s).1 = Return r)
  ∧ (key ∉ prototypeKeys →
       (stateManager.onChange key callback s).1 = Return ()).
Proof.
  split_and!.
  - apply set_always_returns.
  - destruct (get_returns key s) as (r & s' & -> & _). by exists r.
  - by rewrite remove_spec.
  - by rewrite clear_spec.
  - destruct (get_returns key s) as (r & s' & Hget & _).
    rewrite (update_unfold _ _ _ _ _ Hget). by eexists.
  - intros _. by rewrite onChange_spec.
Qed.

(* ===================================================================== *)
(** * Further properties: what JSON keeps and what it refuses *)
(* ===================================================================== *)

(** Induction on documents through array elements and object members. *)
Lemma json_nested_ind (P : json → Prop) :
  (∀ elements, Forall P elements → P (JArray elements)) →
  (∀ members, Forall (λ kj, P kj.2) members → P (JObject members)) →
  P JNull → (∀ b, P (JBool b)) → (∀ z, P (JNumber z)) → (∀ s, P (JString s)) →
  ∀ j, P j.
Proof.
  intros Harray Hobject Hnull Hbool Hnumber Hstring.
  fix IH 1. intros [|b|z|s|elements|members];
    [apply Hnull | apply Hbool | apply Hnumber | apply Hstring | |].
  - apply Harray. revert elements. fix IHelements 1. intros [|x r].
    + constructor.
    + constructor; [apply IH | apply IHelements].
  - apply Hobject. revert members. fix IHmembers 1. intros [|[k x] r].
    + constructor.
    + constructor; [apply IH | apply IHmembers].
Qed.

Lemma serialize_array_cons (x : value) (r : list value) :
  serialize (VArray (x :: r))
  = match serialize x with
    | Throw e => Throw e
    | Return j =>
        match serialize (VArray r) with
        | Return (Some (JArray js)) => Return (Some (JArray (default JNull j :: js)))
        | other => other
        end
    end.
Proof.
  simpl. destruct (serialize x) as [j|e]; simpl; [|done].
  by destruct ((fix each (l : list value) : result (list json) := _) r).
Qed.

Lemma serialize_object_cons (k : string) (x : value) (r : list (string * value)) :
  serialize (VObject ((k, x) :: r))
  = match serialize x with
    | Throw e => Throw e
    | Return j =>
        match serialize (VObject r) with
        | Return (Some (JObject ms)) =>
            Return (Some (JObject (match j with
                                   | Some j => (k, j) :: ms
                                   | None => ms
                                   end)))
        | other => other
        end
    end.
Proof.
  simpl. destruct (serialize x) as [j|e]; simpl; [|done].
  by destruct ((fix each (l : list (string * value))
                  : result (list (string * json)) := _) r).
Qed.

(** [JSON.stringify] throws exactly on a value that holds a BigInt; otherwise
    it writes a document, an array for an array and an object for an object,
    and writes nothing only for [undefined], a symbol and a function. *)
Lemma serialize_outcome (v : value) :
  if holdsBigInt v
  then serialize v = Throw (TypeError "Do not know how to serialize a BigInt")
  else ∃ written, serialize v = Return written
         ∧ (written = None → typeof v ≠ "object" ∧ typeof v ≠ "string"
                              ∧ typeof v ≠ "number")
         ∧ (∀ j, written = Some j → typeof v = "object" → v ≠ VNull →
                 (∃ js, j = JArray js) ∨ (∃ ms, j = JObject ms)).
Proof.
  induction v as [items IH|props IH|v Harr Hobj] using value_nested_ind.
  - enough (if existsb holdsBigInt items
            then serialize (VArray items)
                 = Throw (TypeError "Do not know how to serialize a BigInt")
            else ∃ js, serialize (VArray items) = Return (Some (JArray js))) as Hgen.
    { simpl holdsBigInt. destruct (existsb holdsBigInt items); [done|].
      destruct Hgen as [js ->]. eexists. split_and!; [done | done |].
      intros j [= <-] _ _. left. by eexists. }
    induction IH as [|x r Hx _ IHr]; [by exists []|].
    rewrite serialize_array_cons. cbn [existsb].
    destruct (holdsBigInt x); cbn [orb].
    + by rewrite Hx.
    + destruct Hx as (written & -> & _).
      destruct (existsb holdsBigInt r); [by rewrite IHr|].
      destruct IHr as [js ->]. by eexists.
  - enough (if existsb (λ kv, holdsBigInt kv.2) props
            then serialize (VObject props)
                 = Throw (TypeError "Do not know how to serialize a BigInt")
            else ∃ ms, serialize (VObject props) = Return (Some (JObject ms)))
      as Hgen.
    { simpl holdsBigInt. destruct (existsb _ props); [done|].
      destruct Hgen as [ms ->]. eexists. split_and!; [done | done |].
      intros j [= <-] _ _. right. by eexists. }
    induction IH as [|[k x] r Hx _ IHr]; [by exists []|].
    rewrite serialize_object_cons. cbn [existsb snd]. cbn [snd] in Hx.
    destruct (holdsBigInt x); cbn [orb].
    + by rewrite Hx.
    + destruct Hx as (written & -> & _).
      destruct (existsb _ r); [by rewrite IHr|].
      destruct IHr as [ms ->]. by eexists.
  - destruct v as [| |b|[z| | |]|z|s|d|f|items|props|n]; simpl;
      try (eexists; split_and!; [reflexivity | done | done]); try done.
    + by destruct (Harr items).
    + by destruct (Hobj props).
    + eexists. split_and!; [reflexivity | done |].
      intros j [= <-] _ _. right. by eexists.
Qed.

Lemma objectOfMembers_acc {A : Type} (P : A → Prop) (m acc : list (string * A)) :
  Obj.wf acc → Forall (λ kv, P kv.2) acc → Forall (λ kv, P kv.2) m →
  Obj.wf (foldl (λ o kv, Obj.set kv.1 kv.2 o) acc m)
  ∧ Forall (λ kv, P kv.2) (foldl (λ o kv, Obj.set kv.1 kv.2 o) acc m).
Proof.
  revert acc. induction m as [|[k a] r IH]; intros acc Hwf Hacc Hm; [done|].
  apply Forall_cons in Hm as [Ha Hr]. simpl. apply IH; [by apply Obj_wf_set | | done].
  clear -Hacc Ha. induction Hacc as [|[k' b] o Hb Ho IHo]; simpl.
  - constructor; [exact Ha | constructor].
  - case_bool_decide.
    + constructor; [exact Ha | exact Ho].
    + constructor; [exact Hb | exact IHo].
Qed.

(** An object built from members names each property once. *)
Lemma objectOfMembers_is_wf {A : Type} (m : list (string * A)) :
  Obj.wf (objectOfMembers m).
Proof.
  apply (objectOfMembers_acc (λ _, True) m []);
    [apply NoDup_nil_2 | done | by apply Forall_forall].
Qed.

(** What [JSON.parse] returns is JSON data. *)
Lemma JSON_parse_jsonData (j : json) : jsonData (JSON_parse j) = true.
Proof.
  induction j as [elements IH|members IH| | | |] using json_nested_ind; try done.
  - simpl. induction IH as [|x r Hx _ IHr]; [done|].
    rewrite fmap_cons. simpl. by rewrite Hx, IHr.
  - simpl. apply andb_true_iff. split.
    + apply forallb_forall. intros kv Hin%list_elem_of_In.
      assert (Forall (λ kv, jsonData kv.2 = true)
                ((λ kv, (kv.1, JSON_parse kv.2)) <$> members)) as Hall.
      { clear Hin. induction IH as [|[k x] r Hx _ IHr]; [done|].
        rewrite fmap_cons. by constructor. }
      eapply (objectOfMembers_acc (λ v, jsonData v = true) _ []) in Hall
        as [_ Hall]; [| apply NoDup_nil_2 | done].
      rewrite Forall_forall in Hall. by apply Hall.
    + apply bool_decide_eq_true_2, objectOfMembers_is_wf.
Qed.

Section state_manager_json.
Context `{Host}.

(** JSON data of a kind [set] writes has a text that restores to it. *)
Lemma serialized_restored_json (v : value) :
  jsonData v = true → typeof v ≠ "boolean" →
  ∃ text, stateManager.serialized v = Return text
          ∧ stateManager.restored (Some text) = Return v.
Proof.
  intros Hdata Hkind.
  destruct (serialize_parse v Hdata) as (j & Hj & Hback).
  destruct v as [| |b|[z| | |]|z|s|d|f|items|props|n]; try done.
  - by exists JNull.
  - exists (envelopeText "number" j). split.
    + by apply stringifyEnvelope_spec.
    + rewrite restored_envelope. simpl. by rewrite Hback.
  - exists (envelopeText "string" j). split.
    + by apply stringifyEnvelope_spec.
    + rewrite restored_envelope. simpl. by rewrite Hback.
  - exists (envelopeText "object" j). split.
    + unfold stateManager.serialized. simpl. by apply stringifyEnvelope_spec.
    + rewrite restored_envelope. simpl. by rewrite Hback.
  - exists (envelopeText "object" j). split.
    + unfold stateManager.serialized. simpl. by apply stringifyEnvelope_spec.
    + rewrite restored_envelope. simpl. by rewrite Hback.
Qed.

(** X7.  An array of JSON data is stored under the object tag like a plain
    object and reads back as the same array: for every value that is JSON
    data and no boolean, [get] right after [set] returns the value and changes
    nothing. *)
Theorem set_get_json (key : string) (v : value) (s : stateManager.state) :
  jsonData v = true → typeof v ≠ "boolean" →
  ∃ s1, stateManager.set key v s = (Return (), s1)
        ∧ stateManager.get key s1 = (Return v, s1).
Proof.
  intros Hdata Hkind.
  destruct (serialized_restored_json v Hdata Hkind) as (text & Htext & Hback).
  eexists. split; [by apply set_returns|].
  rewrite get_spec. simpl. by rewrite lookup_insert_eq, Hback.
Qed.

Lemma stringifyEnvelope_throws (type : string) (v : value) (e : error) :
  serialize v = Throw e → stateManager.stringifyEnvelope type v = Throw e.
Proof.
  intros Hv. unfold stateManager.stringifyEnvelope, JSON_stringify,
    stateManager.envelope.
  rewrite (serialize_object_cons "type").
  change (serialize (VString type)) with (Return (Some (JString type))).
  cbv beta iota. by rewrite (serialize_object_cons "value"), Hv.
Qed.

(** What is read back after a successful [set] is JSON data of a kind [set]
    writes. *)
Lemma restored_after_set (v : value) (text : json) :
  stateManager.serialized v = Return text →
  ∃ v', stateManager.restored (Some text) = Return v'
        ∧ jsonData v' = true ∧ typeof v' ≠ "boolean".
Proof.
  intros Htext.
  assert (typeof v = "object" → v ≠ VNull →
          ∃ j, serialize v = Return (Some j)
               ∧ ((∃ js, j = JArray js) ∨ (∃ ms, j = JObject ms))) as Hobject.
  { intros Hkind Hnull. pose proof (serialize_outcome v) as Hout.
    destruct (holdsBigInt v).
    - assert (stateManager.serialized v
              = Throw (TypeError "Do not know how to serialize a BigInt")) as Hno.
      { destruct v; try done;
          unfold stateManager.serialized; simpl typeof; cbn [bool_decide];
          by apply stringifyEnvelope_throws. }
      congruence.
    - destruct Hout as (written & Hw & Hnone & Hshape).
      destruct written as [j|]; [|by destruct Hnone as [? _]].
      exists j. split; [done | by apply Hshape]. }
  destruct v as [| |b|n|z|s|d|f|items|props|nd]; try done.
  - injection Htext as <-. by exists VNull.
  - destruct n as [z| | |]; injection Htext as <-;
      by (eexists; split; [reflexivity|]).
  - injection Htext as <-. by (eexists; split; [reflexivity|]).
  - destruct Hobject as (j & Hj & Hshape); [done..|].
    change (stateManager.serialized (VArray items))
      with (stateManager.stringifyEnvelope "object" (VArray items)) in Htext.
    rewrite (stringifyEnvelope_spec "object" _ _ Hj) in Htext.
    injection Htext as <-. rewrite restored_envelope. simpl.
    exists (JSON_parse j). split_and!; [done | apply JSON_parse_jsonData |].
    by destruct Hshape as [[js ->]|[ms ->]].
  - destruct Hobject as (j & Hj & Hshape); [done..|].
    change (stateManager.serialized (VObject props))
      with (stateManager.stringifyEnvelope "object" (VObject props)) in Htext.
    rewrite (stringifyEnvelope_spec "object" _ _ Hj) in Htext.
    injection Htext as <-. rewrite restored_envelope. simpl.
    exists (JSON_parse j). split_and!; [done | apply JSON_parse_jsonData |].
    by destruct Hshape as [[js ->]|[ms ->]].
  - injection Htext as <-. by (eexists; split; [reflexivity|]).
Qed.

Lemma serialized_supported (v : value) :
  (v = VNull ∨ typeof v = "string" ∨ typeof v = "number" ∨ typeof v = "object") →
  if holdsBigInt v
  then stateManager.serialized v
       = Throw (TypeError "Do not know how to serialize a BigInt")
  else ∃ text, stateManager.serialized v = Return text.
Proof.
  intros Hkind. pose proof (serialize_outcome v) as Hout.
  destruct v as [| |b|n|z|s|d|f|items|props|nd];
    try (by destruct Hkind as [?|[?|[?|?]]]); try (by eexists).
  - destruct n; by eexists.
  - change (stateManager.serialized (VArray items))
      with (stateManager.stringifyEnvelope "object" (VArray items)).
    destruct (holdsBigInt (VArray items)).
    + by apply stringifyEnvelope_throws.
    + destruct Hout as ([j|] & Hw & Hnone & _); [|by destruct Hnone as [? _]].
      eexists. by apply stringifyEnvelope_spec.
  - change (stateManager.serialized (VObject props))
      with (stateManager.stringifyEnvelope "object" (VObject props)).
    destruct (holdsBigInt (VObject props)).
    + by apply stringifyEnvelope_throws.
    + destruct Hout as ([j|] & Hw & Hnone & _); [|by destruct Hnone as [? _]].
      eexists. by apply stringifyEnvelope_spec.
Qed.

(** X8.  Reading is stable.  When [set] is given [null], a string, a number
    or an object that holds no BigInt and no [toJSON] method, what [get]
    returns right after it may differ from the value given, but writing that
    result back under any key, in any state, and reading again returns the
    same result. *)
Theorem set_get_stable (key : string) (v : value) (s : stateManager.state) :
  v = VNull ∨ typeof v = "string" ∨ typeof v = "number" ∨ typeof v = "object" →
  holdsBigInt v = false → hasToJSON v = false →
  ∃ v',
    (stateManager.get key (stateManager.set key v s).2).1 = Return v'
    ∧ ∀ key' s',
        (stateManager.get key' (stateManager.set key' v' s').2).1 = Return v'.
Proof.
  intros Hkind Hbig _. pose proof (serialized_supported v Hkind) as Htext.
  rewrite Hbig in Htext. destruct Htext as [text Htext].
  destruct (restored_after_set v text Htext) as (v' & Hback & Hdata & Hnb).
  exists v'. split.
  - rewrite (set_returns _ _ _ _ Htext), get_spec. simpl.
    by rewrite lookup_insert_eq, Hback.
  - intros key' s'.
    destruct (serialized_restored_json v' Hdata Hnb) as (text' & Htext' & Hback').
    rewrite (set_returns _ _ _ _ Htext'), get_spec. simpl.
    by rewrite lookup_insert_eq, Hback'.
Qed.

(** X9.  An array or an object that holds a BigInt, at any depth, and no
    [toJSON] method is not stored: [set] returns, the stored items, the
    registry and the record of callback calls are as before, and the error of
    [JSON.stringify] is on the console. *)
Theorem set_bigint_inside_noop (key : string) (v : value)
    (s : stateManager.state) :
  typeof v = "object" → holdsBigInt v = true → hasToJSON v = false →
  stateManager.set key v s
  = (Return (),
     stateManager.State (stateManager.localStorage s) (stateManager.callbacks s)
       (stateManager.invoked s)
       (stateManager.console s
        ++ [("Error setting value in localStorage:",
             TypeError "Do not know how to serialize a BigInt")])).
Proof.
  intros Hkind Hbig _. apply set_throws.
  pose proof (serialized_supported v) as Htext. rewrite Hbig in Htext.
  apply Htext. auto.
Qed.

(** Only [onChange] changes the registry. *)
Lemma runCall_callbacks (c : methodCall) (s : stateManager.state) :
  stateManager.callbacks ((runCall c s).2)
  = match c with
    | CallOnChange key callback =>
        Obj.set key
          (default [] (Obj.get key (stateManager.callbacks s)) ++ [callback])
          (stateManager.callbacks s)
    | _ => stateManager.callbacks s
    end.
Proof.
  assert (∀ key v s, stateManager.callbacks (stateManager.set key v s).2
                     = stateManager.callbacks s) as Hset.
  { intros key v s0. destruct (stateManager.serialized v) as [text|e] eqn:Htext.
    - by rewrite (set_returns _ _ _ _ Htext).
    - by rewrite (set_throws _ _ _ _ Htext). }
  destruct c as [key v|key|key updater|key| |key callback]; simpl;
    unfold mbind, stateManager.M_bind.
  - pose proof (set_always_returns key v s) as Hr. specialize (Hset key v s).
    by destruct (stateManager.set key v s) as [[[]|e] s'].
  - by destruct (get_returns key s) as (r & s' & -> & _ & Hcb & _).
  - destruct (get_returns key s) as (r & s' & Hget & _ & Hcb & _).
    rewrite (update_unfold _ _ _ _ _ Hget). simpl. by rewrite Hset.
  - by rewrite remove_spec.
  - by rewrite clear_spec.
  - by rewrite onChange_spec.
Qed.

(** The calls made for one key, out of the calls made key by key for a
    registry that names each key once. *)
Lemma filter_fired (key : string) (table : list (string * list nat)) :
  Obj.wf table →
  filter (λ i : string * nat * value, i.1.1 = key)
    (flat_map (λ entry, (λ cb, (entry.1, cb, VNull)) <$> entry.2) table)
  = (λ cb, (key, cb, VNull)) <$> default [] (Obj.get key table).
Proof.
  assert (∀ k (l : list nat),
            filter (λ i : string * nat * value, i.1.1 = key)
              ((λ cb, (k, cb, VNull)) <$> l)
            = if bool_decide (k = key) then (λ cb, (k, cb, VNull)) <$> l else [])
    as Hone.
  { intros k l. induction l as [|cb l IH]; [by case_bool_decide|].
    rewrite fmap_cons, filter_cons, IH.
    destruct (decide (k = key)) as [->|Hne].
    - rewrite bool_decide_eq_true_2 by done. by rewrite decide_True.
    - rewrite bool_decide_eq_false_2 by done. by rewrite decide_False. }
  unfold Obj.wf, Obj.keys.
  induction table as [|[k registered] r IH]; intros Hwf; simpl; [done|].
  apply NoDup_cons in Hwf as [Hfresh Hwf]. simpl in Hfresh.
  rewrite filter_app, Hone, (IH Hwf).
  destruct (decide (k = key)) as [->|Hne].
  - rewrite bool_decide_eq_true_2 by done. simpl.
    rewrite (proj2 (Obj_get_None key r)); [by rewrite app_nil_r | done].
  - by rewrite bool_decide_eq_false_2.
Qed.

(** X10.  The registry holds what was registered and nothing else.  After
    any sequence of calls on a fresh state manager in which [onChange] is
    given no key that names something in [Object.prototype], the callbacks of
    a key are the callbacks [onChange] was given for it, in the order of the
    calls and each as often as it was given: no other method adds or removes
    one.  [clear] then calls each of them once for each time it was
    registered, with [null], the callbacks of a key in the order they were
    registered. *)
Theorem registry_history (cs : list methodCall) :
  Forall (λ key, key ∉ prototypeKeys) (registeredKeys cs) →
  let s := afterCalls cs stateManager.initial in
  (∀ key,
     default [] (Obj.get key (stateManager.callbacks s)) = registrations key cs)
  ∧ ∃ fired,
      stateManager.invoked (stateManager.clear s).2
      = stateManager.invoked s ++ fired
      ∧ (∀ key,
           filter (λ i : string * nat * value, i.1.1 = key) fired
           = (λ cb, (key, cb, VNull)) <$> registrations key cs).
Proof.
  intros _ s.
  assert (Obj.wf (stateManager.callbacks s)
          ∧ ∀ key, default [] (Obj.get key (stateManager.callbacks s))
                   = registrations key cs) as [Hwf Hregistered].
  { subst s. induction cs as [|c cs IH] using rev_ind.
    - split; [apply NoDup_nil_2 | done].
    - unfold afterCalls, registrations in *. rewrite foldl_app. simpl.
      destruct IH as [Hwf Hregistered]. rewrite runCall_callbacks.
      split.
      + destruct c as [key v|key|key updater|key| |key callback]; try done.
        by apply Obj_wf_set.
      + intros k. rewrite omap_app, <- Hregistered.
        destruct c as [key v|key|key updater|key| |key callback]; simpl;
          try (by rewrite app_nil_r).
        destruct (decide (key = k)) as [->|Hne].
        * by rewrite Obj_get_set_eq, bool_decide_eq_true_2.
        * rewrite Obj_get_set_ne by done.
          by rewrite bool_decide_eq_false_2, app_nil_r. }
  split; [done|]. eexists. split; [by apply clear_fires_once|].
  intros key. by rewrite filter_fired, Hregistered.
Qed.

End state_manager_json.

(* ===================================================================== *)
(** * Further properties: hash router *)
(* ===================================================================== *)

(** [render] keeps the hash and, of the container, everything but the
    children. *)
Lemma render_keeps (routes : gmap string router.component) (p : router.page) :
  router.location_hash (router.render routes p).2 = router.location_hash p
  ∧ elementName (router.app (router.render routes p).2) = elementName (router.app p)
  ∧ attributes (router.app (router.render routes p).2) = attributes (router.app p)
  ∧ properties (router.app (router.render routes p).2) = properties (router.app p)
  ∧ listeners (router.app (router.render routes p).2) = listeners (router.app p).
Proof.
  unfold router.render.
  destruct (router.lookupRoute routes (router.currentPath p)) as [c|name|];
    simpl; [| destruct (router.callInherited name) |];
    simpl; by destruct (router.app p).
Qed.

(** X11.  With route functions that give the same element at every call,
    rendering again without a change of hash gives the same result and the
    same page as rendering once: the manual trigger replaces the content of
    the container, it does not add to it, or it throws again.  [render] never
    touches the hash, nor the name, attributes, properties and listeners of
    the container. *)
Theorem render_again (routes : gmap string router.component) (p : router.page) :
  router.render routes (router.render routes p).2 = router.render routes p
  ∧ router.location_hash (router.render routes p).2 = router.location_hash p
  ∧ elementName (router.app (router.render routes p).2) = elementName (router.app p)
  ∧ attributes (router.app (router.render routes p).2) = attributes (router.app p)
  ∧ properties (router.app (router.render routes p).2) = properties (router.app p)
  ∧ listeners (router.app (router.render routes p).2) = listeners (router.app p).
Proof.
  split; [|apply render_keeps].
  unfold router.render at 1 3.
  change (router.currentPath (router.render routes p).2)
    with (if bool_decide
               (Str.slice 1 (router.location_hash (router.render routes p).2) = "")
          then "/"
          else Str.slice 1 (router.location_hash (router.render routes p).2)).
  destruct (render_keeps routes p) as [-> _].
  fold (router.currentPath p).
  assert (router.clearInnerHTML (router.app (router.render routes p).2)
          = router.clearInnerHTML (router.app p)) as ->.
  { unfold router.render.
    destruct (router.lookupRoute routes (router.currentPath p)) as [c|name|];
      simpl; [| destruct (router.callInherited name) |];
      simpl; by destruct (router.app p). }
  done.
Qed.

(** X12.  [hashRouter] looks the container up under [appId], or under [app]
    when no id is given.  Without such an element it throws the not-found
    error and leaves the window as it is: no handler is registered.  With
    one, it registers [render] once as the last [hashchange] handler, renders
    at once into the container and gives back what [render] gave: also when
    [render] throws for want of a route of the table's own to call, the
    handler stays registered and the container stays emptied.  The hash and
    the other elements of the document are untouched. *)
Theorem hashRouter_spec (routes : gmap string router.component)
    (appId : option string) (w : router.window) :
  let id := default "app" appId in
  (router.document w !! id = None →
     router.hashRouter routes appId w = (Throw (NotFoundError id), w))
  ∧ (∀ app, router.document w !! id = Some app →
       let rendered := router.render routes (router.Page (router.hash w) app) in
       router.hashRouter routes appId w
       = (rendered.1,
          router.Window (router.hash w)
            (<[id := router.app rendered.2]> (router.document w))
            (router.hashchange w ++ [(routes, id)]))
       ∧ (∀ other, other ≠ id →
            router.document (router.hashRouter routes appId w).2 !! other
            = router.document w !! other)
       ∧ ((∀ c, router.lookupRoute routes
                  (router.currentPath (router.Page (router.hash w) app))
                ≠ router.Route c) →
          ∃ what, (router.hashRouter routes appId w).1 = Throw (TypeError what)
                  ∧ router.hashchange (router.hashRouter routes appId w).2
                    = router.hashchange w ++ [(routes, id)]
                  ∧ router.document (router.hashRouter routes appId w).2 !! id
                    = Some (router.clearInnerHTML app))).
Proof.
  intros id. split.
  - intros Hnone. unfold router.hashRouter. fold id. by rewrite Hnone.
  - intros app Happ rendered.
    assert (router.hashRouter routes appId w
            = (rendered.1,
               router.Window (router.hash w)
                 (<[id := router.app rendered.2]> (router.document w))
                 (router.hashchange w ++ [(routes, id)]))) as Heq.
    { unfold router.hashRouter. fold id. rewrite Happ. simpl. fold rendered.
      by destruct rendered. }
    rewrite Heq. simpl. split_and!.
    + done.
    + intros other Hne. by rewrite lookup_insert_ne.
    + intros Hroute. subst rendered.
      destruct (render_unselected _ _ Hroute) as [what ->]. simpl.
      exists what. split_and!; [done | done | by rewrite lookup_insert_eq].
Qed.

(* ===================================================================== *)
(** * Further properties: element builder *)
(* ===================================================================== *)

Section element_builder_more.
Context `{Host}.

Lemma applyOption_listeners (e e' : element) (key : string) (v : value) :
  applyOption e key v = Return e' →
  listeners e' = listeners e ++ option_list (handlerOf (key, v)).
Proof.
  unfold applyOption, handlerOf, assignProperty, setAttribute.
  destruct e as [t a p l c]; simpl.
  destruct (String_ v) as [text|err]; simpl;
    repeat case_match; intros [= <-]; simpl; by rewrite ?app_nil_r.
Qed.

Lemma forEach_applyOption_listeners (l : list (string * value)) (e e' : element) :
  forEach (λ e kv, applyOption e kv.1 kv.2) l e = Return e' →
  listeners e' = listeners e ++ omap handlerOf l.
Proof.
  revert e. induction l as [|[k v] r IH]; intros e; simpl.
  - intros [= <-]. by rewrite app_nil_r.
  - destruct (applyOption e k v) as [e1|err] eqn:Hone; simpl; [|done].
    intros Hrest. apply IH in Hrest. apply applyOption_listeners in Hone.
    rewrite Hrest, Hone, <- app_assoc. f_equal.
    by destruct (handlerOf (k, v)).
Qed.

(** When [elem] returns for an options object, the options were applied to
    the fresh element one by one, and the children, if any, appended to the
    result. *)
Lemma elem_object_returns (s : string) (props : list (string * value))
    (children : value) (e : element) :
  Obj.wf props →
  elem (VString s) (VObject props) children = Return e →
  ∃ e1,
    forEach (λ e kv, applyOption e kv.1 kv.2) props (Element s [] [] [] [])
    = Return e1
    ∧ elementName e = s
    ∧ attributes e = attributes e1
    ∧ properties e = properties e1
    ∧ listeners e = listeners e1
    ∧ childNodes e
      = match children with
        | VUndefined | VNull => []
        | _ => omap childNode (leaves children)
        end.
Proof.
  intros Hwf Helem.
  assert (Str.trim s ≠ "") as Hs.
  { intros Hblank. unfold elem in Helem.
    by rewrite bool_decide_eq_true_2 in Helem. }
  rewrite elem_accepted_tagName in Helem by done.
  unfold createElement in Helem.
  destruct (validElementName s); simpl in Helem; [|done].
  rewrite setAttributesAndEvents_object in Helem by done.
  destruct (forEach _ props _) as [e1|err] eqn:Hopts; simpl in Helem; [|done].
  exists e1. split; [done|].
  assert (elementName e1 = s ∧ childNodes e1 = []) as [Hname Hkids].
  { rewrite <- setAttributesAndEvents_object in Hopts by done.
    by apply setAttributesAndEvents_keeps in Hopts. }
  assert (∀ c, appendChildren e1 c = Return e →
               elementName e = s ∧ attributes e = attributes e1
               ∧ properties e = properties e1 ∧ listeners e = listeners e1
               ∧ childNodes e = omap childNode (leaves c)) as Happend.
  { intros c [-> _]%appendChildren_returns. simpl. by rewrite Hkids. }
  destruct children; try (by apply Happend); by injection Helem as <-.
Qed.

(** X13.  What [elem] puts on the element it builds from an options
    object.  When [elem] returns for a tag name, an options object and
    children, the element has that tag name; the listeners [elem] registered
    on it are exactly the options whose value is a function under a key
    starting with [on], in the order of the options, each under the rest of
    its key in lower case; and the children [elem] appended to it are the
    leaves of the children argument, depth first, none for [null] or
    [undefined].  Applying the options appends nothing and appending the
    children registers nothing. *)
Theorem elem_built_parts (s : string) (props : list (string * value))
    (children : value) (e : element) :
  Obj.wf props →
  elem (VString s) (VObject props) children = Return e →
  elementName e = s
  ∧ listeners e = omap handlerOf props
  ∧ childNodes e
    = match children with
      | VUndefined | VNull => []
      | _ => omap childNode (leaves children)
      end.
Proof.
  intros Hwf Helem.
  destruct (elem_object_returns _ _ _ _ Hwf Helem)
    as (e1 & Hopts & Hname & _ & _ & Hlisten & Hkids).
  apply forEach_applyOption_listeners in Hopts.
  split_and!; [done | | done].
  by rewrite Hlisten, Hopts.
Qed.

Lemma leaves_not_array (v : value) : Forall (λ x, isArray x = false) (leaves v).
Proof.
  induction v as [items IH|props _|v Harr _] using value_nested_ind.
  - simpl. induction IH as [|x r Hx _ IHr]; simpl; [done|].
    by apply Forall_app.
  - by repeat constructor.
  - destruct v; try (by repeat constructor). by destruct (Harr items).
Qed.

(** The leaves of a value, put in an array, have themselves as leaves. *)
Lemma leaves_leaves (v : value) : leaves (VArray (leaves v)) = leaves v.
Proof.
  simpl. pose proof (leaves_not_array v) as Hall.
  induction Hall as [|x r Hx _ IHr]; simpl; [done|].
  rewrite IHr. by destruct x.
Qed.

(** X14.  Nesting of arrays of children does not matter: [elem] with an
    array of children gives what it gives with the flat array of the leaves,
    and any two arrays with the same leaves give the same result, a thrown
    error included. *)
Theorem elem_children_flat (tagName options : value) (items : list value) :
  elem tagName options (VArray items)
  = elem tagName options (VArray (leaves (VArray items)))
  ∧ (∀ items', leaves (VArray items') = leaves (VArray items) →
       elem tagName options (VArray items') = elem tagName options (VArray items)).
Proof.
  assert (∀ items', leaves (VArray items') = leaves (VArray items) →
            elem tagName options (VArray items')
            = elem tagName options (VArray items)) as Hsame.
  { intros items' Hleaves.
    destruct tagName as [| |b|n|z|s|d|f|its|props|nd]; try done.
    destruct (decide (Str.trim s = "")) as [Hblank|Hs].
    { unfold elem. by rewrite !bool_decide_eq_true_2. }
    rewrite !elem_accepted_tagName by done.
    destruct (createElement s) as [e0|err]; cbn -[appendChildren leaves]; [|done].
    destruct (isChildren options); [done|].
    destruct (setAttributesAndEvents e0 _) as [e1|err];
      cbn -[appendChildren leaves]; [|done].
    by rewrite !appendChildren_leaves, Hleaves. }
  split; [|exact Hsame].
  symmetry. apply Hsame. apply leaves_leaves.
Qed.

(** X15.  Options that are no object.  [null] in the place of the options
    is an error, unlike [null] in the place of the children: with a tag name
    that is accepted, [elem] throws a type error.  A boolean, a BigInt, a
    symbol or a function in that place has no keys and is ignored: the call
    is the call without options. *)
Theorem elem_options_not_object (s : string) (options children : value) :
  (Str.trim s ≠ "" → validElementName s = true →
     ∃ what, elem (VString s) VNull children = Throw (TypeError what))
  ∧ (typeof options = "boolean" ∨ typeof options = "bigint"
     ∨ typeof options = "symbol" ∨ typeof options = "function" →
     elem (VString s) options children = elem (VString s) VUndefined children).
Proof.
  split.
  - intros Hs Hvalid. rewrite elem_accepted_tagName by done.
    unfold createElement. rewrite Hvalid. simpl. by eexists.
  - intros Hkind.
    destruct (decide (Str.trim s = "")) as [Hblank|Hs].
    { unfold elem. by rewrite !bool_decide_eq_true_2. }
    rewrite !elem_accepted_tagName by done.
    destruct (createElement s) as [e0|err]; simpl; [|done].
    destruct options; try (by destruct Hkind as [?|[?|[?|?]]]); done.
Qed.

End element_builder_more.

(* ===================================================================== *)
(** * Further properties: link helper *)
(* ===================================================================== *)

(** Listing the properties in order moves them and loses none. *)
Lemma propertyOrder_Permutation (o : list (string * value)) :
  propertyOrder o ≡ₚ o.
Proof.
  unfold propertyOrder. rewrite merge_sort_Permutation.
  apply filter_app_complement.
Qed.

Lemma propertyOrder_wf (o : list (string * value)) :
  Obj.wf o → Obj.wf (propertyOrder o).
Proof.
  unfold Obj.wf, Obj.keys. intros Hwf.
  by rewrite (fmap_Permutation fst _ _ (propertyOrder_Permutation o)).
Qed.

(** In an object that names each property once, reading a property is
    finding its entry. *)
Lemma Obj_get_Some_wf {A : Type} (key : string) (a : A) (o : list (string * A)) :
  Obj.wf o → Obj.get key o = Some a ↔ (key, a) ∈ o.
Proof.
  intros Hwf. split; [apply Obj_get_elem_of | by apply Obj_get_wf_elem].
Qed.

Lemma propertyOrder_get (key : string) (o : list (string * value)) :
  Obj.wf o → Obj.get key (propertyOrder o) = Obj.get key o.
Proof.
  intros Hwf. pose proof (propertyOrder_wf o Hwf) as Hwf'.
  destruct (Obj.get key o) as [v|] eqn:Hget.
  - apply Obj_get_Some_wf; [done|].
    rewrite (propertyOrder_Permutation o). by apply Obj_get_Some_wf.
  - apply Obj_get_None. apply Obj_get_None in Hget.
    unfold Obj.keys in *.
    by rewrite (fmap_Permutation fst _ _ (propertyOrder_Permutation o)).
Qed.

Lemma foldl_set_get_other {A : Type} (key : string) (l acc : list (string * A)) :
  key ∉ Obj.keys l →
  Obj.get key (foldl (λ o kv, Obj.set kv.1 kv.2 o) acc l) = Obj.get key acc.
Proof.
  revert acc. induction l as [|[k a] r IH]; intros acc Hnot; [done|].
  unfold Obj.keys in *. rewrite fmap_cons, not_elem_of_cons in Hnot.
  destruct Hnot as [Hne Hr]. simpl. rewrite IH by done.
  by apply Obj_get_set_ne.
Qed.

Lemma foldl_set_get_last {A : Type} (key : string) (a : A)
    (l acc : list (string * A)) :
  Obj.wf l → Obj.get key l = Some a →
  Obj.get key (foldl (λ o kv, Obj.set kv.1 kv.2 o) acc l) = Some a.
Proof.
  revert acc. induction l as [|[k b] r IH]; intros acc Hwf Hget; [done|].
  unfold Obj.wf, Obj.keys in Hwf. rewrite fmap_cons in Hwf.
  apply NoDup_cons in Hwf as [Hk Hr]. simpl in *.
  case_bool_decide as Heq.
  - injection Hget as ->. subst k.
    rewrite foldl_set_get_other by done. apply Obj_get_set_eq.
  - by apply IH.
Qed.

Lemma Obj_keys_foldl_set {A : Type} (key : string) (l acc : list (string * A)) :
  key ∈ Obj.keys (foldl (λ o kv, Obj.set kv.1 kv.2 o) acc l)
  ↔ key ∈ Obj.keys acc ∨ key ∈ Obj.keys l.
Proof.
  revert acc. induction l as [|[k a] r IH]; intros acc; simpl.
  - split; [by left | intros [?|Hin]; [done | by apply elem_of_nil in Hin]].
  - rewrite IH, Obj_keys_set.
    assert (key ∈ Obj.keys ((k, a) :: r) ↔ key = k ∨ key ∈ Obj.keys r) as ->
      by apply elem_of_cons.
    case_bool_decide as Hin.
    + split; [tauto|]. intros [?|[->|?]]; tauto.
    + rewrite elem_of_app, list_elem_of_singleton. tauto.
Qed.

Lemma filter_keys_get {A : Type} (excluded key : string) (o : list (string * A)) :
  Obj.get key (filter (λ kv, kv.1 ≠ excluded) o)
  = if decide (key ≠ excluded) then Obj.get key o else None.
Proof.
  induction o as [|[k a] r IH]; simpl.
  - by destruct (decide (key ≠ excluded)).
  - rewrite filter_cons. simpl. destruct (decide (k ≠ excluded)) as [Hk|Hk].
    + simpl. destruct (decide (k = key)) as [->|Hne].
      * rewrite !bool_decide_eq_true_2 by done.
        by destruct (decide (key ≠ excluded)).
      * rewrite !bool_decide_eq_false_2 by done. apply IH.
    + rewrite IH. destruct (decide (k = key)) as [->|Hne].
      * rewrite bool_decide_eq_true_2 by done.
        by destruct (decide (key ≠ excluded)).
      * by rewrite bool_decide_eq_false_2.
Qed.

Lemma filter_keys_wf {A : Type} (excluded : string) (o : list (string * A)) :
  Obj.wf o → Obj.wf (filter (λ kv, kv.1 ≠ excluded) o).
Proof.
  unfold Obj.wf, Obj.keys. induction o as [|[k a] r IH]; [done|].
  rewrite fmap_cons, NoDup_cons. intros [Hk Hr]. rewrite filter_cons. simpl.
  destruct (decide (k ≠ excluded)); [|by apply IH].
  rewrite fmap_cons. apply NoDup_cons. split; [|by apply IH].
  intros Hin. apply Hk. apply list_elem_of_fmap in Hin as ([k' a'] & -> & Hin).
  apply list_elem_of_filter in Hin as [_ Hin].
  apply list_elem_of_fmap. by exists (k', a').
Qed.

(** Of an object that names each property once, the rest without [class] is
    its properties but [class], in order. *)
Lemma otherProps_object (ps : list (string * value)) :
  Obj.wf ps →
  link.otherProps (VObject ps) = Return (filter (λ kv, kv.1 ≠ "class") ps).
Proof.
  intros Hwf. unfold link.otherProps. simpl. f_equal.
  enough (∀ l, (∀ kv, kv ∈ l → Obj.get kv.1 ps = Some kv.2) →
            (λ key, (key, default VUndefined (Obj.get key ps)))
              <$> filter (λ key, key ≠ "class") (Obj.keys l)
            = filter (λ kv, kv.1 ≠ "class") l) as Hgen.
  { apply Hgen. intros [k v] Hin. by apply Obj_get_wf_elem. }
  induction l as [|[k v] r IH]; intros Hl; [done|].
  unfold Obj.keys in *. rewrite fmap_cons, !filter_cons. simpl.
  assert (Obj.get k ps = Some v) as Hk by apply (Hl (k, v)), list_elem_of_here.
  destruct (decide (k ≠ "class")).
  - rewrite fmap_cons, Hk. simpl. f_equal. apply IH.
    intros kv Hin. apply Hl. by apply list_elem_of_further.
  - apply IH. intros kv Hin. apply Hl. by apply list_elem_of_further.
Qed.

(** Writing members one after the other: a name reads as the members give
    it and else as it read before. *)
Lemma foldl_set_get {A : Type} (key : string) (l acc : list (string * A)) :
  Obj.wf l →
  Obj.get key (foldl (λ o kv, Obj.set kv.1 kv.2 o) acc l)
  = match Obj.get key l with
    | Some a => Some a
    | None => Obj.get key acc
    end.
Proof.
  intros Hwf. destruct (Obj.get key l) as [a|] eqn:Hget.
  - by apply foldl_set_get_last.
  - apply foldl_set_get_other. by apply Obj_get_None.
Qed.

Section link_helper.
Context `{Host}.

(** The options of a link for an options object, once the class is merged
    and the target is a string. *)
Lemma link_options_object (handler : nat) (location_hash : string)
    (href : value) (ps : list (string * value)) (opts : value) :
  Obj.wf ps →
  link.options handler location_hash href (VObject ps) = Return opts →
  ∃ combined hrefText,
    link.combinedClass location_hash href (VObject ps) = Return combined
    ∧ ToString href = Return hrefText
    ∧ opts
      = VObject (propertyOrder
                   (foldl (λ o kv, Obj.set kv.1 kv.2 o)
                      [("href", VString ("#" +:+ hrefText));
                       ("onclick", VFunction handler);
                       ("class", VString combined)]
                      (filter (λ kv, kv.1 ≠ "class") ps))).
Proof.
  intros Hwf. unfold link.options. cbv zeta.
  destruct (link.combinedClass _ _ _) as [combined|e];
    cbn -[link.otherProps objectLiteral ToString]; [|done].
  rewrite otherProps_object by done.
  cbn -[link.otherProps objectLiteral ToString].
  destruct (ToString href) as [hrefText|e];
    cbn -[link.otherProps objectLiteral ToString]; [|done].
  intros [= <-]. exists combined, hrefText. split_and!; [done..|].
  reflexivity.
Qed.

(** How the options of a link read: a name other than [class] that the
    caller's options have reads as there; any other name reads as in the
    link's own three properties. *)
Lemma link_options_lookup (handler : nat) (location_hash : string)
    (href : value) (ps : list (string * value)) (opts : value) :
  Obj.wf ps →
  link.options handler location_hash href (VObject ps) = Return opts →
  ∃ o combined hrefText,
    opts = VObject o
    ∧ Obj.wf o
    ∧ link.combinedClass location_hash href (VObject ps) = Return combined
    ∧ ToString href = Return hrefText
    ∧ ∀ key,
        Obj.get key o
        = match (if decide (key ≠ "class") then Obj.get key ps else None) with
          | Some v => Some v
          | None =>
              Obj.get key [("href", VString ("#" +:+ hrefText));
                           ("onclick", VFunction handler);
                           ("class", VString combined)]
          end.
Proof.
  intros Hwf Hopts.
  destruct (link_options_object _ _ _ _ _ Hwf Hopts)
    as (combined & hrefText & Hclass & Hhref & ->).
  set (base := [("href", VString ("#" +:+ hrefText));
                ("onclick", VFunction handler);
                ("class", VString combined)]).
  set (others := filter (λ kv, kv.1 ≠ "class") ps).
  assert (Obj.wf others) as Hwfo by apply (filter_keys_wf "class" ps Hwf).
  assert (Obj.wf (foldl (λ o kv, Obj.set kv.1 kv.2 o) base others)) as Hwff.
  { apply (objectOfMembers_acc (λ _, True) others base);
      [| by apply Forall_forall | by apply Forall_forall].
    unfold Obj.wf, base. simpl. apply (bool_decide_unpack _). by vm_compute. }
  eexists _, combined, hrefText.
  split_and!; [done | by apply propertyOrder_wf | done | done |].
  intros key. rewrite propertyOrder_get, foldl_set_get by done.
  unfold others. by rewrite filter_keys_get.
Qed.

(** X16.  The options a link is built from.  For an options object [props],
    the object [Link] hands to [elem] names each property once and has these
    properties: [class], holding the merged class and never the caller's
    own; every property of [props] but [class], with the caller's value, a
    caller's [href] or [onclick] thereby replacing the link's own; and
    [href], the target behind [#], and [onclick], the navigation handler,
    when [props] has none. *)
Theorem link_options_properties (handler : nat) (location_hash : string)
    (href : value) (ps : list (string * value)) (opts : value) :
  Obj.wf ps →
  link.options handler location_hash href (VObject ps) = Return opts →
  ∃ o combined hrefText,
    opts = VObject o
    ∧ Obj.wf o
    ∧ link.combinedClass location_hash href (VObject ps) = Return combined
    ∧ ToString href = Return hrefText
    ∧ Obj.get "class" o = Some (VString combined)
    ∧ (∀ key v, key ≠ "class" → Obj.get key ps = Some v → Obj.get key o = Some v)
    ∧ (Obj.get "href" ps = None →
         Obj.get "href" o = Some (VString ("#" +:+ hrefText)))
    ∧ (Obj.get "onclick" ps = None →
         Obj.get "onclick" o = Some (VFunction handler))
    ∧ (∀ key, key ∈ Obj.keys o
              ↔ key ∈ ["href"; "onclick"; "class"] ∨ key ∈ Obj.keys ps).
Proof.
  intros Hwf Hopts.
  destruct (link_options_lookup _ _ _ _ _ Hwf Hopts)
    as (o & combined & hrefText & -> & Hwfo & Hclass & Hhref & Hlookup).
  exists o, combined, hrefText.
  split_and!; [done | done | done | done | ..].
  - by rewrite Hlookup.
  - intros key v Hne Hget. by rewrite Hlookup, decide_True, Hget.
  - intros Hnone. by rewrite Hlookup, decide_True, Hnone.
  - intros Hnone. by rewrite Hlookup, decide_True, Hnone.
  - intros key. rewrite <- !Obj_get_is_Some, Hlookup.
    destruct (decide (key ≠ "class")) as [Hne|Heq].
    + destruct (Obj.get key ps) as [v|].
      * split; [intros _; right; by eexists | intros _; by eexists].
      * rewrite Obj_get_is_Some.
        split; [intros Hin; by left | intros [Hin|[? [=]]]; exact Hin].
    + apply dec_stable in Heq as ->.
      split; [intros _; left | intros _; by eexists].
      apply list_elem_of_further, list_elem_of_further, list_elem_of_here.
Qed.

(** X17.  The class of a link.  With a target that is a string and options
    whose [class] is a string or missing, the merged class is the caller's
    class, followed by [router-active] when the hash without its [#] is the
    target, the two separated by one space and an empty part left out; so a
    link without class of its own is [router-active] exactly when the hash
    names its target, and has the empty class otherwise. *)
Theorem link_class_merge (location_hash target : string)
    (ps : list (string * value)) (c : string) :
  (Obj.get "class" ps = None ∧ c = "") ∨ Obj.get "class" ps = Some (VString c) →
  link.combinedClass location_hash (VString target) (VObject ps)
  = Return (if bool_decide (Str.slice 1 location_hash = target)
            then (if bool_decide (c = "") then "router-active"
                  else c +:+ " router-active")
            else c).
Proof.
  intros Hclass. unfold link.combinedClass, link.readClass, link.dynamicClass.
  destruct (bool_decide (Str.slice 1 location_hash = target));
    destruct Hclass as [[Hnone ->]|Hsome]; simpl;
    rewrite ?Hnone, ?Hsome; try done; by destruct c.
Qed.

Lemma applyOption_class_kept (e e' : element) (key : string) (v : value) :
  key ≠ "class" → asciiLowerCase key ≠ "class" →
  applyOption e key v = Return e' →
  Obj.get "class" (attributes e') = Obj.get "class" (attributes e).
Proof.
  intros Hkey Hlower. unfold applyOption, assignProperty, setAttribute.
  destruct e as [t a p l c]; simpl.
  rewrite (bool_decide_eq_false_2 (key = "class")) by done.
  destruct (String_ v) as [text|err]; simpl;
    repeat case_match; intros [= <-]; simpl; try done.
  by apply Obj_get_set_ne.
Qed.

(** What [String(v)] returns is the string form. *)
Lemma String_result (v : value) (text : string) :
  String_ v = Return text → text = stringForm v.
Proof.
  unfold String_, ToString.
  destruct v; repeat case_match; intros [= <-]; done.
Qed.

Lemma applyOption_class_set (e e' : element) (v : value) :
  applyOption e "class" v = Return e' →
  Obj.get "class" (attributes e') = Some (stringForm v).
Proof.
  unfold applyOption. destruct e as [t a p l c].
  replace (Str.startsWith "on" "class") with false by done.
  rewrite andb_false_r. simpl.
  destruct (String_ v) as [text|err] eqn:Htext; simpl; [|done].
  apply String_result in Htext as ->.
  intros [= <-]. simpl. apply Obj_get_set_eq.
Qed.

(** Among options that name each property once, with no other key that
    lower-cases to [class], the class attribute is what the key [class]
    set. *)
Lemma forEach_class_attribute (l : list (string * value)) (e e' : element) :
  Obj.wf l →
  (∀ k, k ∈ Obj.keys l → k ≠ "class" → asciiLowerCase k ≠ "class") →
  forEach (λ e kv, applyOption e kv.1 kv.2) l e = Return e' →
  Obj.get "class" (attributes e')
  = match Obj.get "class" l with
    | Some v => Some (stringForm v)
    | None => Obj.get "class" (attributes e)
    end.
Proof.
  revert e. induction l as [|[k v] r IH]; intros e Hwf Hkeys; simpl.
  - by intros [= <-].
  - unfold Obj.wf, Obj.keys in Hwf. rewrite fmap_cons in Hwf.
    apply NoDup_cons in Hwf as [Hk Hr].
    destruct (applyOption e k v) as [e1|err] eqn:Hone; simpl; [|done].
    intros Hrest. apply IH in Hrest; [|done|].
    + rewrite Hrest. destruct (decide (k = "class")) as [->|Hne].
      * rewrite bool_decide_eq_true_2 by done.
        apply (Obj_get_None "class" r) in Hk. rewrite Hk.
        by apply applyOption_class_set in Hone.
      * rewrite bool_decide_eq_false_2 by done.
        destruct (Obj.get "class" r); [done|].
        apply applyOption_class_kept in Hone; [done..|].
        apply Hkeys; [apply list_elem_of_here | done].
    + intros k' Hin. apply Hkeys. by apply list_elem_of_further.
Qed.

(** X18.  The class attribute of a link.  When [Link] returns an element
    for an options object in which no key other than [class] writes the
    class (none is [class] in another case, [className] or [classList]), the
    class attribute of the element is the merged class, whatever else the
    options hold.  The attribute is set also when the merged class is
    empty. *)
Theorem link_class_attribute (handler : nat) (location_hash : string)
    (href : value) (ps : list (string * value)) (children : value) (e : element) :
  Obj.wf ps →
  (∀ k, k ∈ Obj.keys ps → k ≠ "class" →
        asciiLowerCase k ≠ "class" ∧ k ∉ ["className"; "classList"]) →
  link.Link handler location_hash href (VObject ps) children = Return e →
  ∃ combined,
    link.combinedClass location_hash href (VObject ps) = Return combined
    ∧ Obj.get "class" (attributes e) = Some combined.
Proof.
  intros Hwf Hkeys. unfold link.Link.
  destruct (link.options _ _ _ _) as [opts|err] eqn:Hopts;
    cbn -[elem]; [|done].
  destruct (link_options_lookup _ _ _ _ _ Hwf Hopts)
    as (o & combined & hrefText & -> & Hwfo & Hcombined & _ & Hlookup).
  intros Helem. exists combined. split; [done|].
  destruct (elem_object_returns _ _ _ _ Hwfo Helem)
    as (e1 & Hopt & _ & -> & _).
  apply forEach_class_attribute in Hopt; [|done|].
  - by rewrite Hopt, Hlookup.
  - intros k Hk Hne. apply Obj_get_is_Some in Hk. rewrite Hlookup in Hk.
    rewrite decide_True in Hk by done.
    destruct (Obj.get k ps) as [v|] eqn:Hget.
    + apply (Hkeys k); [|done]. apply Obj_get_is_Some. by rewrite Hget.
    + apply Obj_get_is_Some in Hk.
      repeat (apply elem_of_cons in Hk as [->|Hk]; [done|]).
      by apply elem_of_nil in Hk.
Qed.

(** X19.  The click handler of a link.  When [Link] returns an element for
    an options object without [onclick], the navigation handler listens to
    [click] on it.  When the options have an [onclick] of their own, that
    value takes the place of the navigation handler, which then listens to
    nothing on the element: a link given its own [onclick] no longer
    navigates. *)
Theorem link_click_handler (handler : nat) (location_hash : string)
    (href : value) (ps : list (string * value)) (children : value) (e : element) :
  Obj.wf ps →
  link.Link handler location_hash href (VObject ps) children = Return e →
  (Obj.get "onclick" ps = None → ("click", VFunction handler) ∈ listeners e)
  ∧ (is_Some (Obj.get "onclick" ps) →
     (∀ k v, (k, v) ∈ ps → v ≠ VFunction handler) →
     ∀ type, (type, VFunction handler) ∉ listeners e).
Proof.
  intros Hwf. unfold link.Link.
  destruct (link.options _ _ _ _) as [opts|err] eqn:Hopts;
    cbn -[elem]; [|done].
  destruct (link_options_lookup _ _ _ _ _ Hwf Hopts)
    as (o & combined & hrefText & -> & Hwfo & _ & _ & Hlookup).
  intros Helem.
  destruct (elem_object_returns _ _ _ _ Hwfo Helem)
    as (e1 & Hopt & _ & _ & _ & -> & _).
  apply forEach_applyOption_listeners in Hopt. rewrite Hopt. simpl.
  split.
  - intros Hnone. apply list_elem_of_omap.
    exists ("onclick", VFunction handler). split; [|done].
    apply Obj_get_elem_of. by rewrite Hlookup, decide_True, Hnone.
  - intros [own Hown] Hfresh type Hlisten.
    apply list_elem_of_omap in Hlisten as ([k v] & Hkv & Hhandler).
    assert (v = VFunction handler) as ->.
    { unfold handlerOf in Hhandler. simpl in Hhandler.
      destruct (_ && _); [|done]. by injection Hhandler as _ Hv. }
    apply (Obj_get_Some_wf _ _ _ Hwfo) in Hkv. rewrite Hlookup in Hkv.
    destruct (decide (k ≠ "class")) as [Hne|Heq].
    + destruct (Obj.get k ps) as [v|] eqn:Hget.
      * injection Hkv as ->.
        by apply (Hfresh k _ (Obj_get_elem_of _ _ _ Hget)).
      * simpl in Hkv. repeat case_bool_decide; simplify_eq/=.
    + apply dec_stable in Heq as ->. done.
Qed.

(** Joining raises nothing but the [TypeError] of a conversion. *)
Lemma join_error (separator : string) (l : list value) (err : error) :
  join separator l = Throw err → ∃ what, err = TypeError what.
Proof.
  induction l as [|x r IH]; [done|].
  cbn [join]. unfold mbind, result_bind.
  set (this := match x with
               | VUndefined | VNull => Return ""
               | _ => ToString x
               end).
  assert (∀ e, this = Throw e → ∃ what, e = TypeError what) as Hthis.
  { intros e He. assert (ToString x = Throw e) as Hx by (by destruct x).
    by apply ToString_error in Hx as [_ ?]. }
  destruct this as [text|e]; [|intros [= <-]; by apply Hthis].
  destruct r as [|y r]; [done|].
  destruct (join separator (y :: r)) as [rest|e]; [done|].
  intros [= <-]. by apply IH.
Qed.

(** The options of a link are an object, and making them raises nothing but
    a type error. *)
Lemma link_options_outcome (handler : nat) (location_hash : string)
    (href props : value) :
  match link.options handler location_hash href props with
  | Return opts => ∃ o, opts = VObject o
  | Throw err => ∃ what, err = TypeError what
  end.
Proof.
  unfold link.options. cbv zeta.
  set (given := match props with VUndefined => VObject [] | _ => props end).
  destruct (link.combinedClass location_hash href given) as [combined|err]
    eqn:Hclass; cbn -[link.otherProps objectLiteral ToString].
  - destruct (link.otherProps given) as [others|err] eqn:Hothers;
      cbn -[objectLiteral ToString].
    + destruct (ToString href) as [hrefText|err] eqn:Hhref;
        cbn -[objectLiteral]; [by eexists|].
      by apply ToString_error in Hhref as [_ ?].
    + unfold link.otherProps in Hothers.
      destruct (Object_keys given) as [keys|err'] eqn:Hkeys; [done|].
      injection Hothers as <-. destruct given; try done; injection Hkeys as <-;
        by eexists.
  - unfold link.combinedClass in Hclass.
    destruct (link.readClass given) as [class|err'] eqn:Hread;
      cbn -[join] in Hclass.
    + by apply join_error in Hclass.
    + injection Hclass as <-. unfold link.readClass in Hread.
      destruct given; simplify_eq/=; by eexists.
Qed.

(** X20.  What [Link] raises.  With [null] for the options [Link] throws a
    type error whatever the other arguments are, while omitted options are
    the empty options.  A symbol as target throws a type error.  And [Link]
    never raises the tag-name error: its tag name is fixed. *)
Theorem link_errors (handler : nat) (location_hash : string)
    (href props children : value) :
  (∃ what, link.Link handler location_hash href VNull children
           = Throw (TypeError what))
  ∧ link.Link handler location_hash href VUndefined children
    = link.Link handler location_hash href (VObject []) children
  ∧ (∀ d, ∃ what, link.Link handler location_hash (VSymbol d) VUndefined children
                  = Throw (TypeError what))
  ∧ (∀ received, link.Link handler location_hash href props children
                 ≠ Throw (TagNameError received)).
Proof.
  split_and!.
  - by eexists.
  - done.
  - intros d. by eexists.
  - intros received. unfold link.Link.
    pose proof (link_options_outcome handler location_hash href props) as Hout.
    destruct (link.options _ _ _ _) as [opts|err]; cbn -[elem].
    + by apply elem_accepted_no_tagName_error.
    + destruct Hout as [what ->]. done.
Qed.

End link_helper.

(* ===================================================================== *)
(** * The further properties on concrete calls *)
(* ===================================================================== *)

(** An active link with a class of its own; an inactive one whose own
    [onclick] replaces the navigation handler; a key [Class] that overwrites
    the class attribute. *)
Example link_calls :
  @link.Link sampleHost 9 "#/about" (VString "/about")
    (VObject [("class", VString "btn"); ("title", VString "t")]) (VString "About")
  = Return (Element "a" [("href", "#/about"); ("class", "btn router-active")]
              [("title", VString "t")] [("click", VFunction 9)]
              [TextNode "About"])
  ∧ @link.Link sampleHost 9 "#/home" (VString "/about")
      (VObject [("onclick", VFunction 4)]) (VString "About")
    = Return (Element "a" [("href", "#/about"); ("class", "")] []
                [("click", VFunction 4)] [TextNode "About"])
  ∧ @link.Link sampleHost 9 "#/home" (VString "/about")
      (VObject [("Class", VString "x"); ("class", VString "y")]) (VString "About")
    = Return (Element "a" [("href", "#/about"); ("class", "x")] []
                [("click", VFunction 9)] [TextNode "About"]).
Proof. split_and!; by vm_compute. Qed.

(** Array indices come first among the options of a link, in ascending
    order. *)
Example link_options_order :
  @link.options sampleHost 9 "" (VString "/a")
    (VObject [("title", VString "t"); ("10", VNull); ("2", VNull); ("02", VNull)])
  = Return (VObject [("2", VNull); ("10", VNull); ("href", VString "#/a");
                     ("onclick", VFunction 9); ("class", VString "");
                     ("title", VString "t"); ("02", VNull)]).
Proof. by vm_compute. Qed.

Lemma set_notifies_witness :
  ∃ text,
    stateManager.set "k" (VNumber NaN)
      (stateManager.State ∅ [("k", [1; 2])] [] [])
    = (Return (),
       stateManager.State (<["k" := text]> ∅) [("k", [1; 2])]
         [("k", 1, VNumber NaN); ("k", 2, VNumber NaN)] []).
Proof.
  destruct (set_notifies "k" (VNumber NaN)
              (stateManager.State ∅ [("k", [1; 2])] [] []))
    as (text & Hset & _).
  - apply (bool_decide_unpack _). by vm_compute.
  - right; right; reflexivity.
  - exists text. exact Hset.
Defined.

Lemma onChange_registers_witness :
  ∃ s',
    stateManager.onChange "k" 1 (stateManager.State ∅ [("k", [1])] [] [])
    = (Return (), s')
    ∧ Obj.get "k" (stateManager.callbacks s') = Some [1; 1].
Proof.
  destruct (onChange_registers "k" 1 (stateManager.State ∅ [("k", [1])] [] []))
    as (s' & Hreturns & Hregistered & _).
  - apply (bool_decide_unpack _). by vm_compute.
  - exists s'. split; [exact Hreturns | exact Hregistered].
Defined.

Lemma registry_history_witness :
  default []
    (Obj.get "b"
       (stateManager.callbacks
          (@afterCalls sampleHost
             [CallOnChange "b" 1; CallSet "b" (VString "x"); CallOnChange "1" 2;
              CallRemove "b"; CallOnChange "b" 3; CallOnChange "b" 1]
             stateManager.initial)))
  = [1; 3; 1].
Proof.
  apply (@registry_history sampleHost
           [CallOnChange "b" 1; CallSet "b" (VString "x"); CallOnChange "1" 2;
            CallRemove "b"; CallOnChange "b" 3; CallOnChange "b" 1]).
  apply (bool_decide_unpack _). by vm_compute.
Defined.

Lemma set_get_json_witness :
  ∃ s1,
    stateManager.set "list"
      (VArray [VNumber (Finite 1); VString "a"; VBoolean true; VArray []])
      stateManager.initial = (Return (), s1)
    ∧ @stateManager.get sampleHost "list" s1
      = (Return (VArray [VNumber (Finite 1); VString "a"; VBoolean true;
                         VArray []]), s1).
Proof.
  apply (@set_get_json sampleHost "list"
           (VArray [VNumber (Finite 1); VString "a"; VBoolean true; VArray []])
           stateManager.initial); [reflexivity | discriminate].
Defined.

Lemma set_get_stable_witness :
  ∃ v',
    (@stateManager.get sampleHost "k"
       (stateManager.set "k"
          (VObject [("f", VFunction 1); ("n", VNumber NaN)])
          stateManager.initial).2).1
    = Return v'
    ∧ ∀ key' s',
        (@stateManager.get sampleHost key' (stateManager.set key' v' s').2).1
        = Return v'.
Proof.
  apply (@set_get_stable sampleHost "k"
           (VObject [("f", VFunction 1); ("n", VNumber NaN)])
           stateManager.initial);
    [right; right; right; reflexivity | reflexivity | reflexivity].
Defined.

Lemma set_bigint_inside_noop_witness :
  stateManager.set "k" (VArray [VObject [("n", VBigInt 5)]]) stateManager.initial
  = (Return (),
     stateManager.State ∅ [] []
       [("Error setting value in localStorage:",
         TypeError "Do not know how to serialize a BigInt")]).
Proof.
  apply (set_bigint_inside_noop "k" (VArray [VObject [("n", VBigInt 5)]])
           stateManager.initial); reflexivity.
Defined.

Lemma elem_built_parts_witness :
  listeners (Element "button" [("onhover", "x")] [("id", VString "b")]
               [("click", VFunction 1)] [TextNode "ok"])
  = [("click", VFunction 1)].
Proof.
  apply (@elem_built_parts sampleHost "button"
           [("onClick", VFunction 1); ("id", VString "b"); ("onhover", VString "x")]
           (VString "ok")
           (Element "button" [("onhover", "x")] [("id", VString "b")]
              [("click", VFunction 1)] [TextNode "ok"])).
  - apply (bool_decide_unpack _). by vm_compute.
  - by vm_compute.
Defined.

Lemma link_options_properties_witness :
  ∃ o combined hrefText,
    VObject [("href", VString "#/about"); ("onclick", VFunction 9);
             ("class", VString "btn router-active"); ("title", VString "t")]
    = VObject o
    ∧ Obj.wf o
    ∧ @link.combinedClass sampleHost "#/about" (VString "/about")
        (VObject [("class", VString "btn"); ("title", VString "t")])
      = Return combined
    ∧ @ToString sampleHost (VString "/about") = Return hrefText
    ∧ Obj.get "class" o = Some (VString combined).
Proof.
  destruct (@link_options_properties sampleHost 9 "#/about" (VString "/about")
              [("class", VString "btn"); ("title", VString "t")]
              (VObject [("href", VString "#/about"); ("onclick", VFunction 9);
                        ("class", VString "btn router-active");
                        ("title", VString "t")]))
    as (o & combined & hrefText & Ho & Hwf & Hcombined & Hhref & Hclass & _).
  - apply (bool_decide_unpack _). by vm_compute.
  - by vm_compute.
  - by exists o, combined, hrefText.
Defined.

Lemma link_class_merge_witness :
  @link.combinedClass sampleHost "#/about" (VString "/about")
    (VObject [("class", VString "btn")])
  = Return "btn router-active".
Proof.
  apply (@link_class_merge sampleHost "#/about" "/about"
           [("class", VString "btn")] "btn").
  right. reflexivity.
Defined.

Lemma link_class_attribute_witness :
  ∃ combined,
    @link.combinedClass sampleHost "#/about" (VString "/about")
      (VObject [("class", VString "btn"); ("title", VString "t")])
    = Return combined
    ∧ Obj.get "class"
        (attributes (Element "a"
                       [("href", "#/about"); ("class", "btn router-active")]
                       [("title", VString "t")] [("click", VFunction 9)]
                       [TextNode "About"]))
      = Some combined.
Proof.
  apply (@link_class_attribute sampleHost 9 "#/about" (VString "/about")
           [("class", VString "btn"); ("title", VString "t")]
           (VString "About")).
  - apply (bool_decide_unpack _). by vm_compute.
  - intros k Hk Hne.
    repeat (apply elem_of_cons in Hk as [->|Hk];
            [first [done | split; [done|]; apply (bool_decide_unpack _);
                    by vm_compute]|]).
    by apply elem_of_nil in Hk.
  - by vm_compute.
Defined.

Lemma link_click_handler_witness :
  ("click", VFunction 9)
  ∈ listeners (Element "a" [("href", "#/about"); ("class", "btn router-active")]
                 [("title", VString "t")] [("click", VFunction 9)]
                 [TextNode "About"]).
Proof.
  destruct (@link_click_handler sampleHost 9 "#/about" (VString "/about")
              [("class", VString "btn"); ("title", VString "t")]
              (VString "About")
              (Element "a" [("href", "#/about"); ("class", "btn router-active")]
                 [("title", VString "t")] [("click", VFunction 9)]
                 [TextNode "About"])) as [Hclick _].
  - apply (bool_decide_unpack _). by vm_compute.
  - by vm_compute.
  - apply Hclick. reflexivity.
Defined.

(* ===================================================================== *)
(** * Further properties: what belongs to a key, what counts as children *)
(* ===================================================================== *)

(** X21.  [set] touches its own key only, whatever the value it is given,
    a value with a [toJSON] method apart: the items of the other keys and the
    registry are as before, every other key reads as before, and every
    callback it calls is registered under its key and is given the value
    [set] was given. *)
Theorem set_touches_its_key `{Host} (key : string) (v : value)
    (s : stateManager.state) :
  hasToJSON v = false →
  ∃ fired,
    stateManager.invoked (stateManager.set key v s).2
    = stateManager.invoked s ++ fired
    ∧ (∀ i, i ∈ fired →
         ∃ cb, i = (key, cb, v)
               ∧ cb ∈ default [] (Obj.get key (stateManager.callbacks s)))
    ∧ stateManager.callbacks (stateManager.set key v s).2
      = stateManager.callbacks s
    ∧ (∀ k', k' ≠ key →
         stateManager.localStorage (stateManager.set key v s).2 !! k'
         = stateManager.localStorage s !! k')
    ∧ (∀ k', k' ≠ key →
         (stateManager.get k' (stateManager.set key v s).2).1
         = (stateManager.get k' s).1).
Proof.
  intros _. destruct (stateManager.serialized v) as [text|e] eqn:Htext.
  - rewrite (set_returns _ _ _ _ Htext). simpl. eexists. split_and!; [done | | done | |].
    + intros i (cb & -> & Hcb)%list_elem_of_fmap. by exists cb.
    + intros k' Hne. by rewrite lookup_insert_ne.
    + intros k' Hne. apply get_value_item. simpl. by rewrite lookup_insert_ne.
  - rewrite (set_throws _ _ _ _ Htext). simpl. exists []. split_and!; try done.
    + by rewrite app_nil_r.
    + by intros i Hi%elem_of_nil.
    + intros k' Hne. by apply get_value_item.
Qed.

(** X22.  A callback registered with [onChange] is called last by the next
    [set] of its key: for a key that names nothing in [Object.prototype] and
    for [null], a string or a number, [set] after [onChange] calls the
    callbacks registered before, in their order, and then the new one, each
    with the value; registering the same callback again makes it be called
    again. *)
Theorem onChange_then_set (key : string) (callback : nat) (v : value)
    (s : stateManager.state) :
  key ∉ prototypeKeys →
  v = VNull ∨ typeof v = "string" ∨ typeof v = "number" →
  stateManager.invoked
    (stateManager.set key v (stateManager.onChange key callback s).2).2
  = stateManager.invoked s
    ++ ((λ cb, (key, cb, v))
          <$> default [] (Obj.get key (stateManager.callbacks s)))
    ++ [(key, callback, v)].
Proof.
  intros _ Hkind. destruct (serialized_primitive v Hkind) as [text Htext].
  rewrite (set_returns _ _ _ _ Htext), onChange_spec. simpl.
  rewrite Obj_get_set_eq. simpl. by rewrite fmap_app.
Qed.

(** X23.  The test [elem] applies to its second argument agrees with what
    [appendChildren] accepts: a value is taken for children exactly when it
    is an array or a leaf that can be appended.  A text node is neither: as
    second argument it is read as options without keys and silently dropped,
    as third argument it is an error. *)
Theorem isChildren_agrees `{Host} (v : value) :
  (isChildren v = true ↔ isArray v = true ∨ is_Some (childNode v))
  ∧ (∀ s data children,
       elem (VString s) (VNode (TextNode data)) children
       = elem (VString s) VUndefined children)
  ∧ (∀ s data, Str.trim s ≠ "" → validElementName s = true →
       elem (VString s) VUndefined (VNode (TextNode data))
       = Throw (ChildrenError (VNode (TextNode data)))).
Proof.
  split_and!.
  - destruct v as [| |b|n|z|s|d|f|items|props|[data|c]]; simpl;
      (split; [try done; intros _; by eauto
              | try done; intros [?|[? ?]]; done]).
  - intros s data children.
    destruct (decide (Str.trim s = "")) as [Hblank|Hs].
    { unfold elem. by rewrite !bool_decide_eq_true_2. }
    rewrite !elem_accepted_tagName by done.
    by destruct (createElement s).
  - intros s data Hs Hvalid. rewrite elem_accepted_tagName by done.
    unfold createElement. by rewrite Hvalid.
Qed.

Lemma onChange_then_set_witness :
  stateManager.invoked
    (stateManager.set "k" (VString "v")
       (stateManager.onChange "k" 2
          (stateManager.State ∅ [("k", [1; 2])] [] [])).2).2
  = [] ++ [("k", 1, VString "v"); ("k", 2, VString "v")] ++ [("k", 2, VString "v")].
Proof.
  apply (onChange_then_set "k" 2 (VString "v")
           (stateManager.State ∅ [("k", [1; 2])] [] [])).
  - apply (bool_decide_unpack _). by vm_compute.
  - right. left. reflexivity.
Defined.

Lemma set_touches_its_key_witness :
  ∃ fired,
    stateManager.invoked
      (stateManager.set "k" (VObject [("f", VFunction 1)])
         (stateManager.State ∅ [("k", [1]); ("j", [2])] [] [])).2
    = [] ++ fired
    ∧ ∀ i, i ∈ fired →
           ∃ cb, i = ("k", cb, VObject [("f", VFunction 1)]) ∧ cb ∈ [1].
Proof.
  destruct (@set_touches_its_key sampleHost "k" (VObject [("f", VFunction 1)])
              (stateManager.State ∅ [("k", [1]); ("j", [2])] [] []))
    as (fired & Hfired & Hregistered & _); [reflexivity|].
  exists fired. split; [exact Hfired | exact Hregistered].
Defined.
